(** * Timeline synthesis and frame-accurate segment compositor

    A shallow embedding of the slideshow generator's core:
    [timing_calculator.py], [transitions.py], [particle_overlay.py],
    [segment_renderer.py], [ken_burns.py], the image search of [utils.py]
    and the control skeleton of [slideshow_generator.py].

    Conventions of the embedding.
    - Python [float] values are idealised as exact rationals ([Q]); Python
      [int] values are [Z].  [int(x)] is truncation toward zero and
      [round(x)] is round-half-to-even, as in Python 3.
    - A [logging.Logger] is a list of records (level and message head), the
      newest record last.
    - The module-global [random] generator is an explicit state: an entropy
      tape and a cursor.  Every statement is quantified over the tape.
    - [math.sin] is a parameter of the particle model.  Raster drawing
      (Pillow) and the encoder process (FFmpeg) are external collaborators:
      what they return is an input of the model.
    - File names and absolute paths ([Path(p).name], [Path(p).resolve()])
      and the MD5 digest of a cache key are parameters; [str.lower()] acts
      on the ASCII letters. *)

From Stdlib Require Import ZArith QArith Qround Qabs String List Bool Lia Lqa.
Import ListNotations.

Local Open Scope Q_scope.

(* ================================================================== *)
(** * Python numerics *)
(* ================================================================== *)

Module Py.

(** [x < y] and [x <= y] on floats, as booleans. *)
Definition ltb (x y : Q) : bool := negb (Qle_bool y x).
Definition leb (x y : Q) : bool := Qle_bool x y.
Definition gtb (x y : Q) : bool := ltb y x.
Definition eqb (x y : Q) : bool := Qeq_bool x y.

(** [int(x)]: truncation toward zero. *)
Definition int (x : Q) : Z := Z.quot (Qnum x) (Zpos (Qden x)).


(** The exceptions that the embedded code can meet. *)
Inductive exn :=
| ZeroDivisionError | IndexError | ValueError | KeyError | TypeError
| OSError | BrokenPipeError | TimeoutExpired.

(** [x / y] raises [ZeroDivisionError] (here [None]) when [y] is zero. *)
Definition div (x y : Q) : option Q :=
  if eqb y 0 then None else Some (x / y).

(** [min(a, b)] and [max(a, b)]: Python returns the first argument unless
    the second is strictly smaller (resp. larger). *)
Definition min (a b : Q) : Q := if ltb b a then b else a.
Definition max (a b : Q) : Q := if ltb a b then b else a.

(** [seq[-k:]]: the last [k] elements (all of them when there are fewer). *)
Definition last_n {A} (k : nat) (l : list A) : list A :=
  skipn (length l - k) l.

End Py.

(* ================================================================== *)
(** * Logging *)
(* ================================================================== *)

Inductive level := DEBUG | INFO | WARNING | ERROR.

Definition log_record : Type := level * string.
Definition logger : Type := list log_record.

Definition level_eqb (a b : level) : bool :=
  match a, b with
  | DEBUG, DEBUG | INFO, INFO | WARNING, WARNING | ERROR, ERROR => true
  | _, _ => false
  end.

Definition emit (lg : logger) (lv : level) (msg : string) : logger :=
  lg ++ [(lv, msg)].

Definition logged_at (lv : level) (lg : logger) : bool :=
  existsb (fun r => level_eqb (fst r) lv) lg.

(* ================================================================== *)
(** * timing_calculator.py *)
(* ================================================================== *)

Module Timing.

Local Open Scope string_scope.

(** The keys of [timing_config] that [__init__] reads; [None] is an absent
    key. *)
Record timing_config := {
  opening_part1_duration : option Q;
  opening_part2_duration : option Q;
  duration_per_image : option Q;
  image_duration : option Q;
  min_closing_duration : option Q
}.

Definition get (o : option Q) (default : Q) : Q :=
  match o with Some v => v | None => default end.

(** The attributes of a [TimingCalculator]. *)
Record TimingCalculator := {
  audio_duration : Q;
  OPENING_PART1_DURATION : Q;
  OPENING_PART2_DURATION : Q;
  IMAGE_DURATION : Q;
  MIN_CLOSING_DURATION : Q
}.

Definition __init__ (audio : Q) (cfg : timing_config) : TimingCalculator :=
  {| audio_duration := audio;
     OPENING_PART1_DURATION := get (opening_part1_duration cfg) 3;
     OPENING_PART2_DURATION := get (opening_part2_duration cfg) 6;
     IMAGE_DURATION :=
       get (duration_per_image cfg) (get (image_duration cfg) 6);
     MIN_CLOSING_DURATION := get (min_closing_duration cfg) 8 |}.

(** The record that [__init__] leaves in the log. *)
Definition init_log (lg : logger) : logger :=
  emit lg DEBUG "Timing config loaded".

Definition set_IMAGE_DURATION (self : TimingCalculator) (d : Q) :=
  {| audio_duration := audio_duration self;
     OPENING_PART1_DURATION := OPENING_PART1_DURATION self;
     OPENING_PART2_DURATION := OPENING_PART2_DURATION self;
     IMAGE_DURATION := d;
     MIN_CLOSING_DURATION := MIN_CLOSING_DURATION self |}.

(** The dictionary that [calculate_timings] returns. *)
Record timings := {
  opening_part1 : Q;
  opening_part2 : Q;
  t_image_duration : Q;
  regular_images_total : Q;
  closing : Q;
  total_video : Q;
  num_images : Z
}.

(** What a call leaves behind: the mutated calculator, the log, and the
    returned value. *)
Record outcome := {
  self' : TimingCalculator;
  log : logger;
  result : timings
}.

Definition log_timing_breakdown (self : TimingCalculator) (lg : logger)
  (t : timings) : logger :=
  let lg := emit lg INFO "============================================================" in
  let lg := emit lg INFO "TIMING BREAKDOWN:" in
  let lg := emit lg INFO "  Opening part 1 (special photo)" in
  let lg := emit lg INFO "  Opening part 2 (photo + text)" in
  let lg := emit lg INFO "  Regular images" in
  let lg := emit lg INFO "  Closing sequence (photo + text)" in
  let lg := emit lg INFO "  TOTAL VIDEO" in
  let lg := emit lg INFO "  Audio duration" in
  let time_diff := Qabs (total_video t - audio_duration self) in
  let lg :=
    if Py.ltb time_diff (1 # 2)
    then emit lg INFO "  Video matches audio"
    else emit lg WARNING "  Video differs from audio" in
  emit lg INFO "============================================================".

Definition calculate_timings (self : TimingCalculator) (lg : logger)
  (num_regular_images : Z) : Py.exn + outcome :=
  let n := inject_Z num_regular_images in
  let regular_total := n * IMAGE_DURATION self in
  let closing_duration :=
    audio_duration self - OPENING_PART1_DURATION self
    - OPENING_PART2_DURATION self - regular_total in
  let adjusted : Py.exn + (TimingCalculator * logger * Q * Q) :=
    if Py.ltb closing_duration (MIN_CLOSING_DURATION self) then
      let lg := emit lg WARNING "Calculated closing duration is less than minimum" in
      let available_time :=
        audio_duration self - OPENING_PART1_DURATION self
        - OPENING_PART2_DURATION self - MIN_CLOSING_DURATION self in
      if Py.gtb available_time 0 then
        match Py.div available_time n with
        | None => inl Py.ZeroDivisionError
        | Some adjusted_image_duration =>
            let self := set_IMAGE_DURATION self adjusted_image_duration in
            let regular_total := n * IMAGE_DURATION self in
            let closing_duration := MIN_CLOSING_DURATION self in
            let lg := emit lg INFO "Adjusted image duration to accommodate minimum closing duration" in
            inr (self, lg, regular_total, closing_duration)
        end
      else
        let lg := emit lg ERROR "Cannot fit all segments within audio duration. Consider using fewer images or longer audio." in
        inr (self, lg, regular_total, MIN_CLOSING_DURATION self)
    else inr (self, lg, regular_total, closing_duration) in
  match adjusted with
  | inl e => inl e
  | inr (self, lg, regular_total, closing_duration) =>
      let total_video_duration :=
        OPENING_PART1_DURATION self + OPENING_PART2_DURATION self
        + regular_total + closing_duration in
      let t := {| opening_part1 := OPENING_PART1_DURATION self;
                  opening_part2 := OPENING_PART2_DURATION self;
                  t_image_duration := IMAGE_DURATION self;
                  regular_images_total := regular_total;
                  closing := closing_duration;
                  total_video := total_video_duration;
                  num_images := num_regular_images |} in
      inr {| self' := self;
             log := log_timing_breakdown self lg t;
             result := t |}
  end.

(** [get_image_durations]: [[self.IMAGE_DURATION] * num_images]. *)
Definition get_image_durations (self : TimingCalculator) (num : Z) : list Q :=
  repeat (IMAGE_DURATION self) (Z.to_nat num).

End Timing.

(* ================================================================== *)
(** * The [random] module *)
(* ================================================================== *)

Module Random.

(** The hidden state of the generator: the entropy it will deliver, and how
    much of it has been consumed. *)
Record rng := { tape : nat -> N; pos : nat }.

Definition exn : Type := Py.exn.

(** Computations that draw random numbers and may raise. *)
Definition M (A : Type) : Type := rng -> exn + (A * rng).

Definition ret {A} (a : A) : M A := fun g => inr (a, g).
Definition raise {A} (e : exn) : M A := fun _ => inl e.
Definition bind {A B} (m : M A) (k : A -> M B) : M B :=
  fun g => match m g with
           | inl e => inl e
           | inr (a, g') => k a g'
           end.

Declare Scope rand_scope.
Delimit Scope rand_scope with rand.
Notation "x <- m ;; k" := (bind m (fun x => k))
  (at level 61, m at next level, right associativity) : rand_scope.
Notation "' p <- m ;; k" := (bind m (fun x => let p := x in k))
  (at level 61, p pattern, m at next level, right associativity) : rand_scope.

Definition next_word : M N :=
  fun g => inr (tape g (pos g), {| tape := tape g; pos := S (pos g) |}).

Definition two53 : positive := 9007199254740992.

(** [random.random()]: 53 random bits scaled into [0, 1). *)
Definition random : M Q :=
  bind next_word (fun w => ret (Z.of_N (w mod Npos two53) # two53)).

(** [random.uniform(a, b)] is [a + (b - a) * random()]. *)
Definition uniform (a b : Q) : M Q :=
  bind random (fun u => ret (a + (b - a) * u)).

(** [_randbelow(n)] for [n > 0]: some integer below [n]. *)
Definition randbelow (n : nat) : M nat :=
  bind next_word (fun w => ret (N.to_nat (w mod N.of_nat n))).

(** [random.choice(seq)]: [IndexError] on an empty sequence. *)
Definition choice {A} (seq : list A) : M A :=
  match seq with
  | [] => raise Py.IndexError
  | d :: _ => bind (randbelow (List.length seq)) (fun i => ret (nth i seq d))
  end.

(** [itertools.accumulate(weights)]. *)
Fixpoint accumulate_from (acc : Q) (ws : list Q) : list Q :=
  match ws with
  | [] => []
  | w :: ws' => (acc + w) :: accumulate_from (acc + w) ws'
  end.

Definition accumulate (ws : list Q) : list Q :=
  match ws with
  | [] => []
  | w :: ws' => w :: accumulate_from w ws'
  end.

(** [bisect.bisect_right(a, x, lo, hi)]; the interval shrinks at every
    turn of the loop, so [hi - lo] turns are enough. *)
Fixpoint bisect_loop (turns : nat) (a : list Q) (x : Q) (lo hi : nat) : nat :=
  match turns with
  | O => lo
  | S turns' =>
      if (lo <? hi)%nat then
        let mid := ((lo + hi) / 2)%nat in
        if Py.ltb x (nth mid a 0) then bisect_loop turns' a x lo mid
        else bisect_loop turns' a x (mid + 1)%nat hi
      else lo
  end.

Definition bisect (a : list Q) (x : Q) (lo hi : nat) : nat :=
  bisect_loop (hi - lo) a x lo hi.

(** [random.choices(population, weights)[0]]. *)
Definition choices1 {A} (population : list A) (weights : list Q) : M A :=
  match population with
  | [] => raise Py.IndexError
  | d :: _ =>
      let n := List.length population in
      let cum_weights := accumulate weights in
      if negb (List.length cum_weights =? n)%nat then raise Py.ValueError
      else
        let total := last cum_weights 0 + 0 in
        if Py.leb total 0 then raise Py.ValueError
        else
          bind random (fun u =>
            ret (nth (bisect cum_weights (u * total) 0 (n - 1)) population d))
  end.

End Random.

(* ================================================================== *)
(** * transitions.py *)
(* ================================================================== *)

Module Transitions.

Import Random.
Local Open Scope string_scope.

Inductive TransitionCategory := GENTLE | DYNAMIC | ARTISTIC.

(** Iterating over the enumeration visits the members in definition
    order. *)
Definition all_categories : list TransitionCategory :=
  [GENTLE; DYNAMIC; ARTISTIC].

Definition value (c : TransitionCategory) : string :=
  match c with
  | GENTLE => "gentle"
  | DYNAMIC => "dynamic"
  | ARTISTIC => "artistic"
  end.

Definition category_eq_dec (a b : TransitionCategory) : {a = b} + {a <> b}.
Proof. decide equality. Defined.

Definition category_eqb (a b : TransitionCategory) : bool :=
  if category_eq_dec a b then true else false.

Record Transition := {
  name : string;
  category : TransitionCategory;
  description : string
}.

Definition GENTLE_TRANSITIONS : list Transition := [
  {| name := "circlecrop"; category := GENTLE; description := "Soft circular crop reveal" |};
  {| name := "circleclose"; category := GENTLE; description := "Circular close transition" |};
  {| name := "circleopen"; category := GENTLE; description := "Circular open transition" |};
  {| name := "fade"; category := GENTLE; description := "Classic fade transition" |};
  {| name := "fadeblack"; category := GENTLE; description := "Fade through black" |};
  {| name := "fadewhite"; category := GENTLE; description := "Fade through white" |};
  {| name := "dissolve"; category := GENTLE; description := "Smooth dissolve" |};
  {| name := "pixelize"; category := GENTLE; description := "Subtle pixelize effect" |};
  {| name := "hblur"; category := GENTLE; description := "Horizontal blur transition" |};
  {| name := "vdslice"; category := GENTLE; description := "Vertical down slice transition" |};
  {| name := "fadegrays"; category := GENTLE; description := "Fade to grayscale transition" |};
  {| name := "fadefast"; category := GENTLE; description := "Fast fade transition" |}
].

Definition DYNAMIC_TRANSITIONS : list Transition := [
  {| name := "smoothleft"; category := DYNAMIC; description := "Smooth left slide" |};
  {| name := "smoothright"; category := DYNAMIC; description := "Smooth right slide" |};
  {| name := "smoothup"; category := DYNAMIC; description := "Smooth upward slide" |};
  {| name := "smoothdown"; category := DYNAMIC; description := "Smooth downward slide" |};
  {| name := "diagtl"; category := DYNAMIC; description := "Diagonal top-left" |};
  {| name := "diagtr"; category := DYNAMIC; description := "Diagonal top-right" |};
  {| name := "diagbl"; category := DYNAMIC; description := "Diagonal bottom-left" |};
  {| name := "diagbr"; category := DYNAMIC; description := "Diagonal bottom-right" |};
  {| name := "hlwind"; category := DYNAMIC; description := "Horizontal left wind" |};
  {| name := "hrwind"; category := DYNAMIC; description := "Horizontal right wind" |}
].

Definition ARTISTIC_TRANSITIONS : list Transition := [
  {| name := "radial"; category := ARTISTIC; description := "Radial wipe transition" |};
  {| name := "zoomin"; category := ARTISTIC; description := "Zoom in transition" |};
  {| name := "squeezeh"; category := ARTISTIC; description := "Horizontal squeeze" |};
  {| name := "squeezev"; category := ARTISTIC; description := "Vertical squeeze" |}
].

(** [self.category_weights]: a dictionary keyed by the enumeration. *)
Definition weight_table : Type := TransitionCategory -> option Q.

Definition empty_weights : weight_table := fun _ => None.

Definition set_weight (w : weight_table) (c : TransitionCategory) (v : Q)
  : weight_table :=
  fun c' => if category_eqb c' c then Some v else w c'.

Definition has_key (w : weight_table) (c : TransitionCategory) : bool :=
  match w c with Some _ => true | None => false end.

Definition default_weights : weight_table :=
  set_weight (set_weight (set_weight empty_weights GENTLE (7 # 10))
                DYNAMIC (2 # 10)) ARTISTIC (1 # 10).

Record TransitionSelector := {
  log : logger;
  simple_mode : bool;
  anniversary_mode : bool;
  history : list string;
  category_history : list TransitionCategory;
  same_category_count : Z;
  overlay_history : list bool;
  overlay_count : Z;
  category_weights : weight_table;
  transitions : list Transition
}.

(** [TransitionCategory(s)]: lookup by value, [ValueError] (here [None])
    when no member has that value. *)
Definition category_of_value (s : string) : option TransitionCategory :=
  find (fun c => String.eqb (value c) s) all_categories.

(** [str.lower()] on the ASCII letters. *)
Definition lower_ascii (a : Ascii.ascii) : Ascii.ascii :=
  let n := Ascii.nat_of_ascii a in
  if ((65 <=? n) && (n <=? 90))%nat then Ascii.ascii_of_nat (n + 32) else a.

Fixpoint lower (s : string) : string :=
  match s with
  | EmptyString => EmptyString
  | String a s' => String (lower_ascii a) (lower s')
  end.

(** The loop of [__init__] over [weights.items()]. *)
Fixpoint convert_weights (items : list (string * Q)) (acc : weight_table)
  (lg : logger) : weight_table * bool * logger :=
  match items with
  | [] => (acc, false, lg)
  | (category_name, weight) :: rest =>
      match category_of_value (lower category_name) with
      | Some c =>
          let '(w, _, lg') := convert_weights rest (set_weight acc c weight) lg in
          (w, true, lg')
      | None =>
          let lg := emit lg WARNING "Unknown transition category" in
          let '(w, any, lg') := convert_weights rest acc lg in
          (w, any, lg')
      end
  end.

Definition firstn6 {A} (l : list A) : list A := firstn 6 l.

Definition __init__ (weights : list (string * Q)) (lg : logger)
  (simple anniversary : bool) : TransitionSelector :=
  let '(w, any, lg) := convert_weights weights empty_weights lg in
  let '(w, lg) :=
    if any then (w, lg)
    else (default_weights,
          emit lg WARNING "No valid transition weights, using defaults") in
  let pool :=
    if simple then firstn6 GENTLE_TRANSITIONS
    else (GENTLE_TRANSITIONS ++ DYNAMIC_TRANSITIONS ++ ARTISTIC_TRANSITIONS)%list in
  let lg := emit lg INFO "TransitionSelector initialized" in
  let lg := emit lg DEBUG "Simple mode" in
  let lg :=
    if anniversary
    then emit lg INFO "Anniversary mode enabled: '50' overlays will be added to 20-30% of transitions"
    else lg in
  {| log := lg;
     simple_mode := simple;
     anniversary_mode := anniversary;
     history := [];
     category_history := [];
     same_category_count := 0;
     overlay_history := [];
     overlay_count := 0;
     category_weights := w;
     transitions := pool |}.

Definition set_log (self : TransitionSelector) (lg : logger) :=
  {| log := lg;
     simple_mode := simple_mode self;
     anniversary_mode := anniversary_mode self;
     history := history self;
     category_history := category_history self;
     same_category_count := same_category_count self;
     overlay_history := overlay_history self;
     overlay_count := overlay_count self;
     category_weights := category_weights self;
     transitions := transitions self |}.

Definition record_selection (self : TransitionSelector) (nm : string)
  (cat : TransitionCategory) :=
  {| log := log self;
     simple_mode := simple_mode self;
     anniversary_mode := anniversary_mode self;
     history := history self ++ [nm];
     category_history := category_history self ++ [cat];
     same_category_count := same_category_count self;
     overlay_history := overlay_history self;
     overlay_count := overlay_count self;
     category_weights := category_weights self;
     transitions := transitions self |}.

Definition record_overlay (self : TransitionSelector) (b : bool) (count : Z) :=
  {| log := log self;
     simple_mode := simple_mode self;
     anniversary_mode := anniversary_mode self;
     history := history self;
     category_history := category_history self;
     same_category_count := same_category_count self;
     overlay_history := overlay_history self ++ [b];
     overlay_count := count;
     category_weights := category_weights self;
     transitions := transitions self |}.

Definition is_empty {A} (l : list A) : bool :=
  match l with [] => true | _ => false end.

(** [[self.category_weights[cat] for cat in cats]]; a missing key raises
    [KeyError]. *)
Fixpoint weights_of (w : weight_table) (cats : list TransitionCategory)
  : M (list Q) :=
  match cats with
  | [] => ret []
  | c :: rest =>
      match w c with
      | None => raise Py.KeyError
      | Some v => bind (weights_of w rest) (fun vs => ret (v :: vs))
      end
  end.

(** [sum(weights)]. *)
Definition sum (ws : list Q) : Q := fold_left Qplus ws 0.

(** The test at the head of [_select_category]: at least three selections
    and [len(set(category_history[-3:])) == 1].  Returns [current_cat]. *)
Definition repeated_category (self : TransitionSelector)
  : option TransitionCategory :=
  if (3 <=? List.length (category_history self))%nat then
    let recent_categories := Py.last_n 3 (category_history self) in
    if (List.length (nodup category_eq_dec recent_categories) =? 1)%nat
    then nth_error recent_categories 0
    else None
  else None.

Local Open Scope rand_scope.

Definition _select_category (self : TransitionSelector)
  : M (TransitionCategory * TransitionSelector) :=
  match repeated_category self with
  | Some current_cat =>
      let available_cats :=
        filter (fun cat => negb (category_eqb cat current_cat)
                           && has_key (category_weights self) cat)
               all_categories in
      weights <- weights_of (category_weights self) available_cats ;;
      cat <- (if is_empty available_cats || is_empty weights
                 || Py.eqb (sum weights) 0
              then
                let available_cats :=
                  filter (fun cat => negb (category_eqb cat current_cat))
                         all_categories in
                if negb (is_empty available_cats)
                then choice available_cats
                else choice all_categories
              else choices1 available_cats weights) ;;
      ret (cat, set_log self (emit (log self) DEBUG "Forcing category switch"))
  | None =>
      let categories :=
        filter (has_key (category_weights self)) all_categories in
      weights <- weights_of (category_weights self) categories ;;
      if is_empty categories || is_empty weights || Py.eqb (sum weights) 0
      then
        let self := set_log self (emit (log self) WARNING
          "Invalid category weights detected, using equal distribution") in
        cat <- choice all_categories ;;
        ret (cat, self)
      else
        cat <- choices1 categories weights ;;
        ret (cat, self)
  end.

Definition name_in (nm : string) (names : list string) : bool :=
  existsb (String.eqb nm) names.

(** The pool of the chosen category, with the fallback to every
    transition when the category has none. *)
Definition category_pool (self : TransitionSelector) (cat : TransitionCategory)
  : list Transition :=
  let category_transitions :=
    filter (fun t => category_eqb (category t) cat) (transitions self) in
  if is_empty category_transitions then transitions self
  else category_transitions.

(** [[t for t in category_transitions if t.name not in self.history[-2:]]] *)
Definition filtered_pool (self : TransitionSelector) (pool : list Transition)
  : list Transition :=
  filter (fun t => negb (name_in (name t) (Py.last_n 2 (history self)))) pool.

Definition select_next (self : TransitionSelector)
  : M (Transition * TransitionSelector) :=
  ' (cat, self) <- _select_category self ;;
  let category_transitions := category_pool self cat in
  let available := filtered_pool self category_transitions in
  let available :=
    if is_empty available then category_transitions else available in
  transition <- choice available ;;
  let self := record_selection self (name transition) cat in
  let self := set_log self (emit (log self) DEBUG "Selected transition") in
  ret (transition, self).

Definition get_transition_name (self : TransitionSelector)
  : M (string * TransitionSelector) :=
  ' (t, self) <- select_next self ;;
  ret (name t, self).

(** [k] successive calls of [select_next], as the filter builder makes
    them: the transitions returned, oldest first, and the final selector. *)
Fixpoint select_many (k : nat) (self : TransitionSelector)
  : M (list Transition * TransitionSelector) :=
  match k with
  | O => ret ([], self)
  | S k' =>
      ' (t, self) <- select_next self ;;
      ' (ts, self) <- select_many k' self ;;
      ret (t :: ts, self)
  end.

(** The statements of [should_add_anniversary_overlay] that follow its
    first [return]; no call reaches them. *)
Definition anniversary_overlay_after_return (self : TransitionSelector)
  (transition_index total_transitions : Z) : M (bool * TransitionSelector) :=
  if negb (anniversary_mode self) then ret (false, self)
  else if last (overlay_history self) false then
    let self := record_overlay self false (overlay_count self) in
    ret (false, set_log self (emit (log self) DEBUG "Skipping overlay (previous had overlay)"))
  else
    let len := Z.max (Z.of_nat (List.length (overlay_history self))) 1 in
    let current_percentage :=
      (inject_Z (overlay_count self) / inject_Z len) * 100 in
    let target_percentage := 25 in
    let probability :=
      if Py.ltb current_percentage target_percentage
      then 35 # 100 else 15 # 100 in
    u <- random ;;
    let add_overlay := Py.ltb u probability in
    if add_overlay then
      let self := record_overlay self true (overlay_count self + 1) in
      ret (true, set_log self (emit (log self) INFO "Adding gold '50' overlay"))
    else
      let self := record_overlay self false (overlay_count self) in
      ret (false, set_log self (emit (log self) DEBUG "No overlay")).

(** [should_add_anniversary_overlay]: the body starts with
    [return False] (the feature is switched off). *)
Definition should_add_anniversary_overlay (self : TransitionSelector)
  (transition_index total_transitions : Z) : M (bool * TransitionSelector) :=
  ret (false, self).

(** One entry of ["category_distribution"]. *)
Record category_share := {
  count : nat;
  percentage : Q
}.

(** The dictionary that [get_statistics] returns when it is not empty. *)
Record statistics := {
  total_transitions : nat;
  unique_transitions : nat;
  category_distribution : list (string * category_share)
}.

(** [list.count(x)] *)
Definition count_category (c : TransitionCategory)
  (l : list TransitionCategory) : nat :=
  List.length (filter (category_eqb c) l).

(** [get_statistics]: [None] stands for the empty dictionary returned
    when nothing was selected yet. *)
Definition get_statistics (self : TransitionSelector) : option statistics :=
  let total := List.length (history self) in
  if (total =? 0)%nat then None
  else
    Some {| total_transitions := total;
            unique_transitions :=
              List.length (nodup string_dec (history self));
            category_distribution :=
              map (fun c =>
                     let n := count_category c (category_history self) in
                     (value c,
                      {| count := n;
                         percentage :=
                           (inject_Z (Z.of_nat n) / inject_Z (Z.of_nat total))
                           * 100 |}))
                  all_categories |}.

(** [get_simple_transitions] *)
Definition get_simple_transitions : list string :=
  map name (firstn 6 GENTLE_TRANSITIONS).

End Transitions.

(* ================================================================== *)
(** * particle_overlay.py *)
(* ================================================================== *)

Module Particles.

Import Random.
Local Open Scope string_scope.

Inductive ParticleType := HEARTS | SPARKLES | PETALS | CONFETTI | RANDOM.

Definition type_value (t : ParticleType) : string :=
  match t with
  | HEARTS => "hearts"
  | SPARKLES => "sparkles"
  | PETALS => "petals"
  | CONFETTI => "confetti"
  | RANDOM => "random"
  end.

Definition all_types : list ParticleType :=
  [HEARTS; SPARKLES; PETALS; CONFETTI; RANDOM].

(** Types available for random selection. *)
Definition CONCRETE_TYPES : list ParticleType :=
  [HEARTS; SPARKLES; PETALS; CONFETTI].

Definition rgb : Type := Z * Z * Z.

Definition HEARTS_COLORS : list rgb :=
  [(220, 20, 60); (255, 105, 180); (255, 182, 193); (199, 21, 133)]%Z.
Definition SPARKLES_COLORS : list rgb :=
  [(255, 255, 224); (255, 215, 0); (255, 255, 255); (255, 250, 205)]%Z.
Definition PETALS_COLORS : list rgb :=
  [(255, 182, 193); (255, 192, 203); (255, 228, 225); (219, 112, 147)]%Z.
Definition CONFETTI_COLORS : list rgb :=
  [(255, 50, 50); (50, 130, 255); (255, 215, 0); (50, 200, 50);
   (255, 105, 180); (148, 0, 211); (255, 165, 0)]%Z.

(** [DEFAULT_COLORS]: a dictionary without an entry for [RANDOM]. *)
Definition DEFAULT_COLORS (t : ParticleType) : option (list rgb) :=
  match t with
  | HEARTS => Some HEARTS_COLORS
  | SPARKLES => Some SPARKLES_COLORS
  | PETALS => Some PETALS_COLORS
  | CONFETTI => Some CONFETTI_COLORS
  | RANDOM => None
  end.

Record Particle := {
  x : Q;
  y : Q;
  size : Q;
  alpha : Q;
  rotation : Q;
  speed_x : Q;
  speed_y : Q;
  color : rgb;
  life : Q;
  max_life : Q;
  rotation_speed : Q;
  phase : Q;
  base_alpha : Q
}.

Definition set_x (p : Particle) (v : Q) : Particle :=
  {| x := v;
     y := y p;
     size := size p;
     alpha := alpha p;
     rotation := rotation p;
     speed_x := speed_x p;
     speed_y := speed_y p;
     color := color p;
     life := life p;
     max_life := max_life p;
     rotation_speed := rotation_speed p;
     phase := phase p;
     base_alpha := base_alpha p |}.

Definition set_y (p : Particle) (v : Q) : Particle :=
  {| x := x p;
     y := v;
     size := size p;
     alpha := alpha p;
     rotation := rotation p;
     speed_x := speed_x p;
     speed_y := speed_y p;
     color := color p;
     life := life p;
     max_life := max_life p;
     rotation_speed := rotation_speed p;
     phase := phase p;
     base_alpha := base_alpha p |}.

Definition set_size (p : Particle) (v : Q) : Particle :=
  {| x := x p;
     y := y p;
     size := v;
     alpha := alpha p;
     rotation := rotation p;
     speed_x := speed_x p;
     speed_y := speed_y p;
     color := color p;
     life := life p;
     max_life := max_life p;
     rotation_speed := rotation_speed p;
     phase := phase p;
     base_alpha := base_alpha p |}.

Definition set_alpha (p : Particle) (v : Q) : Particle :=
  {| x := x p;
     y := y p;
     size := size p;
     alpha := v;
     rotation := rotation p;
     speed_x := speed_x p;
     speed_y := speed_y p;
     color := color p;
     life := life p;
     max_life := max_life p;
     rotation_speed := rotation_speed p;
     phase := phase p;
     base_alpha := base_alpha p |}.

Definition set_rotation (p : Particle) (v : Q) : Particle :=
  {| x := x p;
     y := y p;
     size := size p;
     alpha := alpha p;
     rotation := v;
     speed_x := speed_x p;
     speed_y := speed_y p;
     color := color p;
     life := life p;
     max_life := max_life p;
     rotation_speed := rotation_speed p;
     phase := phase p;
     base_alpha := base_alpha p |}.

Definition set_speed_x (p : Particle) (v : Q) : Particle :=
  {| x := x p;
     y := y p;
     size := size p;
     alpha := alpha p;
     rotation := rotation p;
     speed_x := v;
     speed_y := speed_y p;
     color := color p;
     life := life p;
     max_life := max_life p;
     rotation_speed := rotation_speed p;
     phase := phase p;
     base_alpha := base_alpha p |}.

Definition set_life (p : Particle) (v : Q) : Particle :=
  {| x := x p;
     y := y p;
     size := size p;
     alpha := alpha p;
     rotation := rotation p;
     speed_x := speed_x p;
     speed_y := speed_y p;
     color := color p;
     life := v;
     max_life := max_life p;
     rotation_speed := rotation_speed p;
     phase := phase p;
     base_alpha := base_alpha p |}.

Definition set_phase (p : Particle) (v : Q) : Particle :=
  {| x := x p;
     y := y p;
     size := size p;
     alpha := alpha p;
     rotation := rotation p;
     speed_x := speed_x p;
     speed_y := speed_y p;
     color := color p;
     life := life p;
     max_life := max_life p;
     rotation_speed := rotation_speed p;
     phase := v;
     base_alpha := base_alpha p |}.

(** The keys of [overlay_config] that [__init__] reads. *)
Record overlay_config := {
  cfg_enabled : option bool;
  cfg_type : option string;
  cfg_density : option Q;
  cfg_application_rate : option Q;
  cfg_apply_to_opening : option bool;
  cfg_apply_to_closing : option bool;
  cfg_size : option string
}.

Record ParticleOverlayGenerator := {
  log : logger;
  width : Z;
  height : Z;
  fps : Z;
  enabled : bool;
  particle_type : ParticleType;
  is_random_mode : bool;
  density : Q;
  application_rate : Q;
  apply_to_opening : bool;
  apply_to_closing : bool;
  size_multiplier : Q;
  colors : list rgb;
  particle_count : Z
}.

Definition type_eqb (a b : ParticleType) : bool :=
  String.eqb (type_value a) (type_value b).

(** [ParticleType(s)], with the [except ValueError] fallback to hearts. *)
Definition type_of_value (s : string) : ParticleType :=
  match find (fun t => String.eqb (type_value t) s) all_types with
  | Some t => t
  | None => HEARTS
  end.

Definition size_map (s : string) : option Q :=
  if String.eqb s "extra_small" then Some (1 # 4)
  else if String.eqb s "small" then Some (1 # 2)
  else if String.eqb s "medium" then Some 1
  else if String.eqb s "large" then Some (3 # 2)
  else if String.eqb s "extra_large" then Some 2
  else None.

Definition get {A} (o : option A) (default : A) : A :=
  match o with Some v => v | None => default end.

(** [max(0.0, min(1.0, v))] *)
Definition clamp01 (v : Q) : Q := Py.max 0 (Py.min 1 v).

Definition __init__ (cfg : overlay_config) (resolution : Z * Z) (fps_ : Z)
  (lg : logger) : ParticleOverlayGenerator :=
  let ty := type_of_value (get (cfg_type cfg) "hearts") in
  let random_mode := type_eqb ty RANDOM in
  let dens := clamp01 (get (cfg_density cfg) (1 # 2)) in
  let en := get (cfg_enabled cfg) false in
  {| log := if en then emit lg INFO "Particle overlays" else lg;
     width := fst resolution;
     height := snd resolution;
     fps := fps_;
     enabled := en;
     particle_type := ty;
     is_random_mode := random_mode;
     density := dens;
     application_rate := clamp01 (get (cfg_application_rate cfg) (3 # 10));
     apply_to_opening := get (cfg_apply_to_opening cfg) true;
     apply_to_closing := get (cfg_apply_to_closing cfg) true;
     size_multiplier := get (size_map (get (cfg_size cfg) "medium")) 1;
     colors :=
       if random_mode then HEARTS_COLORS
       else get (DEFAULT_COLORS ty) HEARTS_COLORS;
     particle_count := Py.int (15 + dens * 35) |}.

(** [should_apply]: one random draw against the application rate. *)
Definition should_apply (PIL_AVAILABLE : bool) (self : ParticleOverlayGenerator)
  : M bool :=
  if negb (enabled self) || negb PIL_AVAILABLE then ret false
  else bind random (fun u => ret (Py.ltb u (application_rate self))).

(** [randomize_type]: a concrete type and its palette replace the
    generator's. *)
Definition randomize_type (self : ParticleOverlayGenerator)
  : M (ParticleType * ParticleOverlayGenerator) :=
  bind (choice CONCRETE_TYPES) (fun ty =>
    match DEFAULT_COLORS ty with
    | None => raise Py.KeyError
    | Some palette =>
        ret (ty,
             {| log := emit (log self) DEBUG "Randomized particle type";
                width := width self;
                height := height self;
                fps := fps self;
                enabled := enabled self;
                particle_type := ty;
                is_random_mode := is_random_mode self;
                density := density self;
                application_rate := application_rate self;
                apply_to_opening := apply_to_opening self;
                apply_to_closing := apply_to_closing self;
                size_multiplier := size_multiplier self;
                colors := palette;
                particle_count := particle_count self |})
    end).

(** [math.pi] is the double 884279719003555 / 2^48. *)
Definition pi : Q := 884279719003555 # 281474976710656.

Local Open Scope rand_scope.
Local Open Scope Q_scope.

Section Simulation.

(** [math.sin], and Pillow's rasteriser followed by [tobytes()]. *)
Variable sin : Q -> Q.
Variable _render_frame : ParticleOverlayGenerator -> list Particle -> list Byte.byte.

Variable self : ParticleOverlayGenerator.

Definition spawn_hearts (total_frames : Z) (initial : bool) (c : rgb)
  (ph : Q) : M Particle :=
  let sm := size_multiplier self in
  s <- uniform 30 85 ;;
  let sz := s * sm in
  lf <- uniform (inject_Z total_frames * (5 # 10)) (inject_Z total_frames * (9 # 10)) ;;
  px <- uniform 0 (inject_Z (width self)) ;;
  py <- (if initial
         then uniform (inject_Z (height self) * (3 # 10)) (inject_Z (height self) * (13 # 10))
         else ret (inject_Z (height self) + sz)) ;;
  a <- uniform (6 # 10) (95 # 100) ;;
  rot <- uniform (-(15)) 15 ;;
  sy <- uniform (15 # 10) 4 ;;
  rs <- uniform (-(5 # 10)) (5 # 10) ;;
  ret {| x := px; y := py; size := sz; alpha := a; rotation := rot;
         speed_x := 0; speed_y := - sy; color := c; life := lf;
         max_life := lf; rotation_speed := rs; phase := ph;
         base_alpha := a |}.

Definition spawn_sparkles (total_frames : Z) (initial : bool) (c : rgb)
  (ph : Q) : M Particle :=
  let sm := size_multiplier self in
  s <- uniform 8 28 ;;
  let sz := s * sm in
  lf <- uniform (inject_Z (fps self) * (5 # 10)) (inject_Z (fps self) * (15 # 10)) ;;
  a <- uniform (6 # 10) (95 # 100) ;;
  px <- uniform 0 (inject_Z (width self)) ;;
  py <- uniform 0 (inject_Z (height self)) ;;
  rot <- uniform 0 360 ;;
  ret {| x := px; y := py; size := sz; alpha := 0; rotation := rot;
         speed_x := 0; speed_y := 0; color := c; life := lf;
         max_life := lf; rotation_speed := 0; phase := ph;
         base_alpha := a |}.

Definition spawn_petals (total_frames : Z) (initial : bool) (c : rgb)
  (ph : Q) : M Particle :=
  let sm := size_multiplier self in
  s <- uniform 15 40 ;;
  let sz := s * sm in
  lf <- uniform (inject_Z total_frames * (4 # 10)) (inject_Z total_frames * (8 # 10)) ;;
  px <- uniform (- sz) (inject_Z (width self) + sz) ;;
  py <- (if initial
         then uniform (- inject_Z (height self) * (3 # 10)) (inject_Z (height self) * (7 # 10))
         else ret (- sz * 2)) ;;
  a <- uniform (5 # 10) (85 # 100) ;;
  rot <- uniform 0 360 ;;
  sx <- uniform (4 # 10) (12 # 10) ;;
  sy <- uniform (8 # 10) 2 ;;
  rs <- uniform (-(2)) 2 ;;
  ret {| x := px; y := py; size := sz; alpha := a; rotation := rot;
         speed_x := sx; speed_y := sy; color := c; life := lf;
         max_life := lf; rotation_speed := rs; phase := ph;
         base_alpha := a |}.

Definition spawn_confetti (total_frames : Z) (initial : bool) (c : rgb)
  (ph : Q) : M Particle :=
  let sm := size_multiplier self in
  s <- uniform 6 18 ;;
  let sz := s * sm in
  lf <- uniform (inject_Z total_frames * (3 # 10)) (inject_Z total_frames * (7 # 10)) ;;
  px <- uniform 0 (inject_Z (width self)) ;;
  py <- (if initial
         then uniform (- inject_Z (height self) * (3 # 10)) (inject_Z (height self) * (5 # 10))
         else ret (- sz * 3)) ;;
  a <- uniform (6 # 10) (95 # 100) ;;
  rot <- uniform 0 360 ;;
  sx <- uniform (-(15 # 10)) (15 # 10) ;;
  sy <- uniform (15 # 10) (35 # 10) ;;
  rs <- uniform (-(6)) 6 ;;
  ret {| x := px; y := py; size := sz; alpha := a; rotation := rot;
         speed_x := sx; speed_y := sy; color := c; life := lf;
         max_life := lf; rotation_speed := rs; phase := ph;
         base_alpha := a |}.

(** [_spawn_particle]: the last branch is an [else], so it also serves a
    generator whose type is still [RANDOM]. *)
Definition _spawn_particle (total_frames : Z) (initial : bool) : M Particle :=
  c <- choice (colors self) ;;
  ph <- uniform 0 (2 * pi) ;;
  match particle_type self with
  | HEARTS => spawn_hearts total_frames initial c ph
  | SPARKLES => spawn_sparkles total_frames initial c ph
  | PETALS => spawn_petals total_frames initial c ph
  | _ => spawn_confetti total_frames initial c ph
  end.

(** [_init_particles]: [particle_count] spawns, appended in order. *)
Fixpoint spawn_initial (count : nat) (total_frames : Z) : M (list Particle) :=
  match count with
  | O => ret []
  | S count' =>
      p <- _spawn_particle total_frames true ;;
      ps <- spawn_initial count' total_frames ;;
      ret (p :: ps)
  end.

Definition _init_particles (total_frames : Z) : M (list Particle) :=
  spawn_initial (Z.to_nat (particle_count self)) total_frames.

Definition lift_div (a b : Q) : M Q :=
  match Py.div a b with
  | Some q => ret q
  | None => raise Py.ZeroDivisionError
  end.

(** The fade envelope shared by hearts, sparkles and petals: [edge] is the
    fraction of life spent fading in and fading out, [hold] the alpha
    between the two. *)
Definition envelope (p : Particle) (edge hold : Q) : M Q :=
  r <- lift_div (life p) (max_life p) ;;
  let progress := 1 - r in
  if Py.ltb progress edge then ret (base_alpha p * (progress / edge))
  else if Py.gtb progress (1 - edge)
  then ret (base_alpha p * ((1 - progress) / edge))
  else ret hold.

(** One turn of the loop of [_update_particles]: the particle that slot
    [i] holds afterwards. *)
Definition update_slot (total_frames : Z) (p : Particle) : M Particle :=
  let p := set_life p (life p - 1) in
  let p := set_phase p (phase p + (8 # 100)) in
  let p := set_rotation p (rotation p + rotation_speed p) in
  match particle_type self with
  | HEARTS =>
      let p := set_y p (y p + speed_y p) in
      let p := set_x p (x p + sin (phase p) * (12 # 10)) in
      a <- envelope p (12 # 100) (base_alpha p) ;;
      let p := set_alpha p a in
      if Py.leb (life p) 0 || Py.ltb (y p) (- size p * 2)
      then _spawn_particle total_frames false
      else ret p
  | SPARKLES =>
      a <- envelope p (2 # 10)
             (base_alpha p * ((8 # 10) + (2 # 10) * sin (phase p * 3))) ;;
      let p := set_alpha p a in
      let p := set_size p (size p * ((97 # 100) + (6 # 100) * sin (phase p * 2))) in
      let p := set_size p (Py.max 5 (Py.min 35 (size p))) in
      if Py.leb (life p) 0
      then _spawn_particle total_frames false
      else ret p
  | PETALS =>
      let p := set_x p (x p + (speed_x p + sin (phase p) * (6 # 10))) in
      let p := set_y p (y p + speed_y p) in
      a <- envelope p (1 # 10) (base_alpha p) ;;
      let p := set_alpha p a in
      if Py.leb (life p) 0
         || Py.gtb (y p) (inject_Z (height self) + size p * 2)
      then _spawn_particle total_frames false
      else ret p
  | _ =>
      let p := set_x p (x p + (speed_x p + sin (phase p * (15 # 10)) * (5 # 10))) in
      let p := set_y p (y p + speed_y p) in
      let p := set_speed_x p (speed_x p * (999 # 1000)) in
      let p :=
        if Py.gtb (y p) (inject_Z (height self) * (85 # 100))
        then set_alpha p (alpha p * (95 # 100)) else p in
      if Py.leb (life p) 0
         || Py.gtb (y p) (inject_Z (height self) + size p * 2)
      then _spawn_particle total_frames false
      else ret p
  end.

(** [_update_particles]: every slot is visited once, in index order, and
    is either mutated in place or overwritten ([particles[i] = ...]). *)
Fixpoint _update_particles (particles : list Particle) (frame_num : Z)
  (total_frames : Z) : M (list Particle) :=
  match particles with
  | [] => ret []
  | p :: rest =>
      p' <- update_slot total_frames p ;;
      rest' <- _update_particles rest frame_num total_frames ;;
      ret (p' :: rest')
  end.

(** ** The frame loop of [generate_overlay_video] *)

(** The encoder process, seen from the writer: whether [Popen] starts it,
    whether the [k]-th write to its standard input goes through, and the
    exit status that [communicate] collects ([None] when it times out). *)
Record encoder := {
  launches : bool;
  accepts : nat -> bool;
  exit_status : option Z
}.

(** Ghost labels for the particle work, used to tell which frames caused
    any. *)
Inductive work := InitParticles | UpdateParticles | RenderFrame.

(** A frame written to the pipe.  [frame_index] is ghost: the pipe only
    carries [payload]. *)
Record written_frame := {
  frame_index : Z;
  payload : list Byte.byte
}.

(** The local variables of the loop, the generator state, the pipe
    content (oldest frame first) and the ghost record of particle work. *)
Record sim_state := {
  particles : option (list Particle);
  current_window_idx : Z;
  gen : rng;
  pipe : list written_frame;
  trace : list (Z * work)
}.

Definition initial_state (g : rng) : sim_state :=
  {| particles := None; current_window_idx := -1; gen := g;
     pipe := []; trace := [] |}.

Definition set_pool (st : sim_state) (ps : list Particle) (g : rng)
  (w : Z * work) : sim_state :=
  {| particles := Some ps; current_window_idx := current_window_idx st;
     gen := g; pipe := pipe st; trace := trace st ++ [w] |}.

Definition set_window (st : sim_state) (idx : Z) : sim_state :=
  {| particles := particles st; current_window_idx := idx;
     gen := gen st; pipe := pipe st; trace := trace st |}.

Definition note (st : sim_state) (w : Z * work) : sim_state :=
  {| particles := particles st; current_window_idx := current_window_idx st;
     gen := gen st; pipe := pipe st; trace := trace st ++ [w] |}.

(** [process.stdin.write(data)] *)
Definition write (enc : encoder) (st : sim_state) (frame_num : Z)
  (data : list Byte.byte) : exn + sim_state :=
  if accepts enc (List.length (pipe st)) then
    inr {| particles := particles st;
           current_window_idx := current_window_idx st;
           gen := gen st;
           pipe := pipe st ++ [{| frame_index := frame_num; payload := data |}];
           trace := trace st |}
  else inl Py.BrokenPipeError.

(** [[(int(s * fps), min(int(e * fps), total_frames)) for s, e in windows]] *)
Definition frame_ranges (active_windows : list (Q * Q)) (total_frames : Z)
  : list (Z * Z) :=
  map (fun w =>
         let start_frame := Py.int (fst w * inject_Z (fps self)) in
         let end_frame := Py.int (snd w * inject_Z (fps self)) in
         (start_frame, Z.min end_frame total_frames))
      active_windows.

(** The inner [for idx, (start, end) in enumerate(...)] with its [break]:
    index, start and length of the first range that holds the frame. *)
Fixpoint find_window (ranges : list (Z * Z)) (idx : Z) (frame_num : Z)
  : option (Z * Z * Z) :=
  match ranges with
  | [] => None
  | (start, end_) :: rest =>
      if ((start <=? frame_num) && (frame_num <? end_))%Z
      then Some (idx, start, (end_ - start)%Z)
      else find_window rest (idx + 1)%Z frame_num
  end.

Definition do_init (st : sim_state) (frame_num length_ : Z)
  : exn + sim_state :=
  match _init_particles length_ (gen st) with
  | inl e => inl e
  | inr (ps, g) => inr (set_pool st ps g (frame_num, InitParticles))
  end.

(** [self._update_particles(particles, frame, length)]: iterating over
    [None] raises [TypeError]. *)
Definition do_update (st : sim_state) (frame_num local_frame length_ : Z)
  : exn + sim_state :=
  match particles st with
  | None => inl Py.TypeError
  | Some ps =>
      match _update_particles ps local_frame length_ (gen st) with
      | inl e => inl e
      | inr (ps', g) => inr (set_pool st ps' g (frame_num, UpdateParticles))
      end
  end.

(** The two last statements of the loop body. *)
Definition do_render (enc : encoder) (st : sim_state) (frame_num : Z)
  : exn + sim_state :=
  match particles st with
  | None => inl Py.TypeError
  | Some ps =>
      write enc (note st (frame_num, RenderFrame)) frame_num
            (_render_frame self ps)
  end.

Definition and_then {A B} (r : exn + A) (k : A -> exn + B) : exn + B :=
  match r with inl e => inl e | inr a => k a end.

(** The body of [for frame_num in range(total_frames)]. *)
Definition frame_step (enc : encoder) (active_frame_ranges : option (list (Z * Z)))
  (total_frames : Z) (transparent_bytes : list Byte.byte)
  (st : sim_state) (frame_num : Z) : exn + sim_state :=
  match active_frame_ranges with
  | Some ranges =>
      match find_window ranges 0 frame_num with
      | None => write enc st frame_num transparent_bytes
      | Some (window_idx, window_start, window_length) =>
          and_then
            (if negb (window_idx =? current_window_idx st)%Z
             then and_then (do_init st frame_num window_length)
                           (fun st => inr (set_window st window_idx))
             else inr st)
            (fun st =>
          let local_frame := (frame_num - window_start)%Z in
          and_then (do_update st frame_num local_frame window_length)
            (fun st => do_render enc st frame_num))
      end
  | None =>
      and_then
        (match particles st with
         | None => do_init st frame_num total_frames
         | Some _ => inr st
         end)
        (fun st =>
      and_then (do_update st frame_num frame_num total_frames)
        (fun st => do_render enc st frame_num))
  end.

(** The loop itself.  An exception leaves the loop at once; the frames
    already written stay in the pipe. *)
Fixpoint frame_loop (enc : encoder) (ranges : option (list (Z * Z)))
  (total_frames : Z) (transparent_bytes : list Byte.byte)
  (frame_nums : list Z) (st : sim_state) : option exn * sim_state :=
  match frame_nums with
  | [] => (None, st)
  | f :: rest =>
      match frame_step enc ranges total_frames transparent_bytes st f with
      | inl e => (Some e, st)
      | inr st' => frame_loop enc ranges total_frames transparent_bytes rest st'
      end
  end.



(** [range(n)] *)
Definition range (n : Z) : list Z := map Z.of_nat (seq 0 (Z.to_nat n)).

(** [b'\x00' * n] *)
Definition zero_bytes (n : Z) : list Byte.byte := repeat Byte.x00 (Z.to_nat n).

Record overlay_run := {
  returned : bool;
  written : list written_frame;
  work_done : list (Z * work);
  pool : option (list Particle);
  run_log : logger
}.

Definition finish (ok : bool) (st : sim_state) (lg : logger) : overlay_run :=
  {| returned := ok; written := pipe st; work_done := trace st;
     pool := particles st; run_log := lg |}.

Definition generate_overlay_video (PIL_AVAILABLE : bool) (enc : encoder)
  (duration : Q) (active_windows : option (list (Q * Q))) (g : rng)
  : overlay_run :=
  let lg := log self in
  let st0 := initial_state g in
  if negb PIL_AVAILABLE then
    finish false st0 (emit lg WARNING "Pillow not installed - skipping particle overlay")
  else
    let total_frames := Py.int (duration * inject_Z (fps self)) in
    if (total_frames <=? 0)%Z then finish false st0 lg
    else
      let active_frame_ranges :=
        match active_windows with
        | None | Some [] => None
        | Some ws => Some (frame_ranges ws total_frames)
        end in
      let lg := emit lg INFO "Generating overlay" in
      if negb (launches enc) then
        finish false st0 (emit lg ERROR "Error generating particle overlay")
      else
        let transparent_bytes :=
          zero_bytes (width self * height self * 4) in
        match frame_loop enc active_frame_ranges total_frames
                transparent_bytes (range total_frames) st0 with
        | (Some _, st) =>
            finish false st (emit lg ERROR "Error generating particle overlay")
        | (None, st) =>
            match exit_status enc with
            | None =>
                finish false st (emit lg ERROR "Error generating particle overlay")
            | Some returncode =>
                if negb (returncode =? 0)%Z
                then finish false st (emit lg ERROR "FFmpeg overlay encoding failed")
                else finish true st (emit lg INFO "Overlay generated")
            end
        end.

(** The state in which the call leaves the [random] module: the draws of
    the frame loop are consumed, also when the loop is left early. *)
Definition random_state_after (PIL_AVAILABLE : bool) (enc : encoder)
  (duration : Q) (active_windows : option (list (Q * Q))) (g : rng) : rng :=
  if negb PIL_AVAILABLE then g
  else
    let total_frames := Py.int (duration * inject_Z (fps self)) in
    if (total_frames <=? 0)%Z then g
    else
      let active_frame_ranges :=
        match active_windows with
        | None | Some [] => None
        | Some ws => Some (frame_ranges ws total_frames)
        end in
      if negb (launches enc) then g
      else
        gen (snd (frame_loop enc active_frame_ranges total_frames
                    (zero_bytes (width self * height self * 4))
                    (range total_frames) (initial_state g))).

End Simulation.

(** The generator with the records that a call added to its logger. *)
Definition with_log (self : ParticleOverlayGenerator) (lg : logger)
  : ParticleOverlayGenerator :=
  {| log := lg;
     width := width self;
     height := height self;
     fps := fps self;
     enabled := enabled self;
     particle_type := particle_type self;
     is_random_mode := is_random_mode self;
     density := density self;
     application_rate := application_rate self;
     apply_to_opening := apply_to_opening self;
     apply_to_closing := apply_to_closing self;
     size_multiplier := size_multiplier self;
     colors := colors self;
     particle_count := particle_count self |}.

End Particles.

(* ================================================================== *)
(** * segment_renderer.py *)
(* ================================================================== *)

Module Segment.

Local Open Scope string_scope.

Record SegmentRenderer := {
  resolution : Z * Z;
  fps : Z;
  crf : Z;
  preset : string
}.

(** One run of the encoding engine, seen from [render_segment]: either
    starting it or reading its output raised, or it wrote some lines and
    exited.  A line is kept as the frame number that the progress parser
    extracts from it ([None] when the line has no ["frame="] or the
    parse fails). *)
Inductive engine_run :=
| Raised (e : Py.exn)
| Exited (lines : list (option Z)) (returncode : Z).

(** What the file system and the probing service answer afterwards:
    whether the output file exists, and its duration ([_get_duration]
    answers 0.0 when probing fails). *)
Record probe := {
  output_exists : bool;
  actual_duration : Q
}.

Definition MSG_FRAME_MISMATCH := "FRAME COUNT MISMATCH".
Definition MSG_LONGER_SHORTER := "This segment is longer/shorter than expected".
Definition MSG_DURATION_DIFFERENCE := "Duration difference".
Definition MSG_DURATION_MATCHES := "Duration matches".
Definition MSG_NOT_CREATED := "output file not created".
Definition MSG_RETURN_CODE := "failed with return code".
Definition MSG_EXCEPTION := "exception".

(** The loop over [process.stdout]: every line is logged, and a parsed
    frame number replaces [frame_count]. *)
Fixpoint read_progress (lines : list (option Z)) (frame_count : Z)
  (lg : logger) : Z * logger :=
  match lines with
  | [] => (frame_count, lg)
  | l :: rest =>
      let lg := emit lg DEBUG "FFmpeg:" in
      read_progress rest (match l with Some k => k | None => frame_count end) lg
  end.

Definition log_header (lg : logger) (overlay_path : option string) : logger :=
  let lg := emit lg INFO "======================================================================" in
  let lg := emit lg INFO "RENDERING" in
  let lg := emit lg INFO "  Input" in
  let lg := emit lg INFO "  Duration" in
  let lg := emit lg INFO "  Expected frames" in
  let lg := emit lg INFO "  Filter" in
  let lg := match overlay_path with
            | Some _ => emit lg INFO "  Particle overlay"
            | None => lg
            end in
  let lg := emit lg INFO "======================================================================" in
  emit lg DEBUG "FFmpeg command".

(** [render_segment].  The command line only matters to the engine, so it
    is not built here; [show_progress] only prints. *)
Definition render_segment (self : SegmentRenderer) (lg : logger)
  (duration : Q) (overlay_path : option string)
  (run : engine_run) (after : probe) : bool * logger :=
  let lg := log_header lg overlay_path in
  match run with
  | Raised _ =>
      let lg := emit lg ERROR MSG_EXCEPTION in
      let lg := emit lg ERROR "Traceback" in
      (false, lg)
  | Exited lines returncode =>
      let '(frame_count, lg) := read_progress lines 0 lg in
      if (returncode =? 0)%Z then
        if output_exists after then
          let expected_frames := Py.int (duration * inject_Z (fps self)) in
          let frame_diff := Z.abs (frame_count - expected_frames) in
          let duration_diff := Qabs (actual_duration after - duration) in
          let lg := emit lg INFO "completed" in
          let lg := emit lg INFO "  File size" in
          let lg := emit lg INFO "  Expected" in
          let lg := emit lg INFO "  Rendered" in
          let lg :=
            if (10 <? frame_diff)%Z then
              let lg := emit lg ERROR MSG_FRAME_MISMATCH in
              emit lg ERROR MSG_LONGER_SHORTER
            else if Py.gtb duration_diff (1 # 2) then
              emit lg WARNING MSG_DURATION_DIFFERENCE
            else emit lg INFO MSG_DURATION_MATCHES in
          (true, lg)
        else (false, emit lg ERROR MSG_NOT_CREATED)
      else (false, emit lg ERROR MSG_RETURN_CODE)
  end.


(** ** [concatenate_segments] *)

(** What the call meets: whether the concat list can be written
    ([OSError] otherwise), what probing the audio file answers ([None]
    when it fails), the run of the merging engine, and whether the final
    file exists afterwards. *)
Record concat_world := {
  list_writable : bool;
  audio_probe : option Q;
  merge_run : engine_run;
  final_exists : bool
}.

(** [_get_duration]: 0.0, with a warning, when probing fails. *)
Definition _get_duration (answer : option Q) (lg : logger) : Q * logger :=
  match answer with
  | Some d => (d, lg)
  | None => (0, emit lg WARNING "Could not get duration")
  end.

(** The loop over the output of the merging engine: every line is
    logged. *)
Fixpoint log_lines (lines : list (option Z)) (lg : logger) : logger :=
  match lines with
  | [] => lg
  | _ :: rest => log_lines rest (emit lg DEBUG "FFmpeg:")
  end.

(** The result of the call, whether [concat_list.txt] exists when it
    returns, and the start time [st=] of the audio fade-out in the
    command line when the command was built. *)
Record concat_result := {
  concat_ok : bool;
  concat_log : logger;
  list_left : bool;
  fade_out_start : option Q
}.

Definition concatenate_segments (self : SegmentRenderer) (lg : logger)
  (segments : list string) (audio_fade_in audio_fade_out : Q)
  (w : concat_world) (list_before : bool) : concat_result :=
  match segments with
  | [] =>
      {| concat_ok := false;
         concat_log := emit lg ERROR "No segments to concatenate";
         list_left := list_before;
         fade_out_start := None |}
  | _ =>
      let lg := emit lg INFO "Concatenating segments" in
      (* the [finally] clause removes the list if it exists *)
      if negb (list_writable w) then
        {| concat_ok := false;
           concat_log := emit lg ERROR "Concatenation exception";
           list_left := false;
           fade_out_start := None |}
      else
        let '(audio_duration, lg) := _get_duration (audio_probe w) lg in
        let st := audio_duration - audio_fade_out in
        let lg := emit lg INFO "Merging video segments with audio..." in
        match merge_run w with
        | Raised _ =>
            {| concat_ok := false;
               concat_log := emit lg ERROR "Concatenation exception";
               list_left := false;
               fade_out_start := Some st |}
        | Exited lines returncode =>
            let lg := log_lines lines lg in
            if (returncode =? 0)%Z then
              if final_exists w then
                {| concat_ok := true;
                   concat_log := emit lg INFO "Final video created";
                   list_left := false;
                   fade_out_start := Some st |}
              else
                {| concat_ok := false;
                   concat_log := emit lg ERROR "Final output file not created";
                   list_left := false;
                   fade_out_start := Some st |}
            else
              {| concat_ok := false;
                 concat_log := emit lg ERROR "Concatenation failed with code";
                 list_left := false;
                 fade_out_start := Some st |}
        end
  end.

End Segment.

(* ================================================================== *)
(** * slideshow_generator.py: the control skeleton of [generate] *)
(* ================================================================== *)

Module Slideshow.

Local Open Scope string_scope.

Inductive segment := Opening1 | Opening2 | Image (i : nat) | Closing.

(** The collaborators of one run: the probed audio length, how many images
    pass validation and how many of them are regular images, the timing
    settings, and for each segment what the engine and the file system do
    when that segment is rendered; last, whether the final concatenation
    succeeds. *)
Record world := {
  audio_seconds : Q;
  valid_images : nat;
  regular_images : nat;
  timing_settings : Timing.timing_config;
  renderer : Segment.SegmentRenderer;
  engine : segment -> Segment.engine_run;
  files : segment -> Segment.probe;
  concatenates : bool
}.

(** A call of [render_segment], kept for inspection. *)
Record render_call := {
  seg : segment;
  seconds : Q
}.

Record run := {
  success : bool;
  calls : list render_call;
  run_log : logger
}.

Definition render (w : world) (lg : logger) (s : segment) (d : Q)
  : bool * logger :=
  Segment.render_segment (renderer w) lg d None (engine w s) (files w s).

(** The [for i, meta in enumerate(metadata_list, start=1)] loop: it
    returns at the first segment that fails. *)
Fixpoint render_images (w : world) (durations : list Q) (i : nat)
  (lg : logger) (done : list render_call) : bool * list render_call * logger :=
  match durations with
  | [] => (true, done, lg)
  | d :: rest =>
      let '(ok, lg) := render w lg (Image i) d in
      let done := (done ++ [{| seg := Image i; seconds := d |}])%list in
      if ok then render_images w rest (S i) lg done
      else (false, done, emit lg ERROR "Failed to render image")
  end.

(** [generate], reduced to what decides which segments are rendered and
    with which durations.  Particle overlays only choose the
    [overlay_path] argument of a render and are left out. *)
Definition generate (w : world) (lg : logger) : run :=
  if (valid_images w <? 2)%nat then
    {| success := false; calls := [];
       run_log := emit lg ERROR "Only a few valid images (need at least 2)" |}
  else
    let timing_calc := Timing.__init__ (audio_seconds w) (timing_settings w) in
    let lg := Timing.init_log lg in
    let n := Z.of_nat (regular_images w) in
    match Timing.calculate_timings timing_calc lg n with
    | inl _ =>
        {| success := false; calls := [];
           run_log := emit lg ERROR "Error generating slideshow" |}
    | inr o =>
        let timing_calc := Timing.self' o in
        let timings := Timing.result o in
        let lg := Timing.log o in
        let durations := Timing.get_image_durations timing_calc n in
        let c1 := {| seg := Opening1; seconds := Timing.opening_part1 timings |} in
        let '(ok, lg) := render w lg Opening1 (Timing.opening_part1 timings) in
        if negb ok then
          {| success := false; calls := [c1];
             run_log := emit lg ERROR "Failed to render opening part 1" |}
        else
        let c2 := {| seg := Opening2; seconds := Timing.opening_part2 timings |} in
        let '(ok, lg) := render w lg Opening2 (Timing.opening_part2 timings) in
        if negb ok then
          {| success := false; calls := [c1; c2];
             run_log := emit lg ERROR "Failed to render opening part 2" |}
        else
        let '(ok, done, lg) := render_images w durations 1 lg [c1; c2] in
        if negb ok then {| success := false; calls := done; run_log := lg |}
        else
        let c := {| seg := Closing; seconds := Timing.closing timings |} in
        let '(ok, lg) := render w lg Closing (Timing.closing timings) in
        if negb ok then
          {| success := false; calls := (done ++ [c])%list;
             run_log := emit lg ERROR "Failed to render closing segment" |}
        else
          {| success := concatenates w; calls := (done ++ [c])%list; run_log := lg |}
    end.

(** ** [_get_transition_overlay] *)

(** The active windows of a segment, by its position: the tail of the
    opening, the head of the closing, both ends of every other segment. *)
Definition transition_windows (td duration : Q) (segment_position : string)
  : list (Q * Q) :=
  if String.eqb segment_position "opening"
  then [(Py.max 0 (duration - td), duration)]
  else if String.eqb segment_position "closing"
  then [(0, Py.min td duration)]
  else if Py.leb duration (2 * td)
  then let mid := duration / 2 in [(0, mid); (mid, duration)]
  else [(0, td); (duration - td, duration)].

Section Overlays.

Import Random Particles.

Variable sin : Q -> Q.
Variable _render_frame : ParticleOverlayGenerator -> list Particle -> list Byte.byte.
Variable PIL_AVAILABLE : bool.

(** The encoder process started for an output path. *)
Variable encoder_for : string -> encoder.

(** [hashlib.md5(key_str.encode()).hexdigest()[:12]], as a function of
    the values that [get_cache_key] formats into [key_str]. *)
Variable digest :
  ParticleType * Q * Q * Q * (Z * Z) * list (Q * Q) -> string.

Variable temp_dir : string.

(** [self.transition_duration] *)
Variable td : Q.

Definition get_cache_key (self : ParticleOverlayGenerator) (duration : Q)
  (active_windows : list (Q * Q)) : string :=
  digest (particle_type self, density self, size_multiplier self, duration,
          (width self, height self), active_windows).

(** [overlay_cache]: a dictionary from cache key to overlay path. *)
Definition overlay_cache : Type := list (string * string).

Definition cache_get (cache : overlay_cache) (key : string) : option string :=
  option_map snd (find (fun kv => String.eqb (fst kv) key) cache).

(** [overlay_cache[key] = file], for a key that is not present. *)
Definition cache_set (cache : overlay_cache) (key file : string)
  : overlay_cache := (key, file) :: cache.

Record overlay_result := {
  overlay_path : option string;
  generator : ParticleOverlayGenerator;
  cache_after : overlay_cache;
  generation : option overlay_run
}.

Local Open Scope rand_scope.

Definition _get_transition_overlay (self : ParticleOverlayGenerator)
  (duration : Q) (segment_position : string) (cache : overlay_cache)
  : M overlay_result :=
  let active_windows := transition_windows td duration segment_position in
  self <- (if is_random_mode self
           then ' (_, s) <- randomize_type self ;; ret s
           else ret self) ;;
  let cache_key := get_cache_key self duration active_windows in
  match cache_get cache cache_key with
  | Some file =>
      ret {| overlay_path := Some file; generator := self;
             cache_after := cache; generation := None |}
  | None =>
      let overlay_file :=
        (temp_dir ++ "/overlay_" ++ cache_key ++ ".mov")%string in
      fun g =>
        let r := generate_overlay_video sin _render_frame self PIL_AVAILABLE
                   (encoder_for overlay_file) duration (Some active_windows)
                   g in
        let g := random_state_after sin _render_frame self PIL_AVAILABLE
                   (encoder_for overlay_file) duration (Some active_windows)
                   g in
        let self := with_log self (Particles.run_log r) in
        if returned r then
          inr ({| overlay_path := Some overlay_file; generator := self;
                  cache_after := cache_set cache cache_key overlay_file;
                  generation := Some r |}, g)
        else
          inr ({| overlay_path := None; generator := self;
                  cache_after := cache; generation := Some r |}, g)
  end.

End Overlays.

End Slideshow.

(* ================================================================== *)
(** * utils.py and slideshow_generator.py: choosing the special photo *)
(* ================================================================== *)

Module Utils.

Local Open Scope string_scope.

(** [needle in hay] on strings: [needle] occurs as a substring. *)
Fixpoint contains (needle hay : string) : bool :=
  String.prefix needle hay
  || match hay with
     | EmptyString => false
     | String _ rest => contains needle rest
     end.

Section Paths.

(** [Path(p).name], the final component of a path. *)
Variable name : string -> string.

(** [str.lower()] *)
Definition lower : string -> string := Transitions.lower.

(** The first [for] loop of [find_image_by_name]: the first image whose
    lowered file name equals the lowered name searched for. *)
Fixpoint exact_match (search_filename : string) (images : list string)
  : option string :=
  match images with
  | [] => None
  | img_path :: rest =>
      if String.eqb search_filename (lower (name img_path))
      then Some img_path
      else exact_match search_filename rest
  end.

(** The second loop: the first image whose lowered file name contains
    it. *)
Fixpoint partial_match (search_filename : string) (images : list string)
  : option string :=
  match images with
  | [] => None
  | img_path :: rest =>
      if contains search_filename (lower (name img_path))
      then Some img_path
      else partial_match search_filename rest
  end.

Definition find_image_by_name (images : list string) (partial_name : string)
  (lg : logger) : option string * logger :=
  let lg := emit lg DEBUG "Searching for image" in
  let search_filename := lower (name partial_name) in
  match exact_match search_filename images with
  | Some img_path =>
      (Some img_path, emit lg INFO "Found special image (exact match)")
  | None =>
      match partial_match search_filename images with
      | Some img_path =>
          (Some img_path, emit lg INFO "Found special image (partial match)")
      | None =>
          let lg := emit lg ERROR "Special image not found" in
          (None, emit lg ERROR "Extracted filename")
      end
  end.

(** [str(Path(p).resolve())], the absolute path. *)
Variable resolve : string -> string.






End Paths.

End Utils.

(* ================================================================== *)
(** * ken_burns.py *)
(* ================================================================== *)

Module KenBurns.

Import Random.
Local Open Scope string_scope.

Inductive KenBurnsType :=
| ZOOM_IN | ZOOM_OUT | PAN_LEFT | PAN_RIGHT | PAN_UP | PAN_DOWN | DIAGONAL.

Definition effect_value (t : KenBurnsType) : string :=
  match t with
  | ZOOM_IN => "zoom_in"
  | ZOOM_OUT => "zoom_out"
  | PAN_LEFT => "pan_left"
  | PAN_RIGHT => "pan_right"
  | PAN_UP => "pan_up"
  | PAN_DOWN => "pan_down"
  | DIAGONAL => "diagonal"
  end.

(** [list(KenBurnsType)]: the members in definition order. *)
Definition all_effects : list KenBurnsType :=
  [ZOOM_IN; ZOOM_OUT; PAN_LEFT; PAN_RIGHT; PAN_UP; PAN_DOWN; DIAGONAL].

Definition effect_eq_dec (a b : KenBurnsType) : {a = b} + {a <> b}.
Proof. decide equality. Defined.

Definition effect_eqb (a b : KenBurnsType) : bool :=
  if effect_eq_dec a b then true else false.

Inductive EasingFunction := LINEAR | EASE_IN | EASE_OUT | EASE_IN_OUT.

Record KenBurnsConfig := {
  zoom_start : Q;
  zoom_end : Q;
  pan_x : Q;
  pan_y : Q;
  effect_type : KenBurnsType;
  easing : EasingFunction;
  speed_multiplier : Q
}.

(** The keys of [effect_config] that [__init__] reads. *)
Record effect_config := {
  cfg_application_rate : option Q;
  cfg_zoom_range : option (list Q);
  cfg_pan_amount : option Q;
  cfg_speed_variations : option (list Q)
}.

(** [self.stats]: a counter for every effect value, and one for
    ["none"]. *)
Record KenBurnsGenerator := {
  log : logger;
  stats : KenBurnsType -> Z;
  stats_none : Z;
  application_rate : Q;
  zoom_range : list Q;
  pan_amount : Q;
  speed_variations : list Q
}.

Definition get {A} (o : option A) (default : A) : A :=
  match o with Some v => v | None => default end.

Definition __init__ (cfg : effect_config) (lg : logger) : KenBurnsGenerator :=
  {| log := lg;
     stats := fun _ => 0%Z;
     stats_none := 0;
     application_rate := get (cfg_application_rate cfg) (65 # 100);
     zoom_range := get (cfg_zoom_range cfg) [1; 108 # 100];
     pan_amount := get (cfg_pan_amount cfg) (6 # 100);
     speed_variations :=
       get (cfg_speed_variations cfg) [7 # 10; 85 # 100; 1] |}.

Definition should_apply (self : KenBurnsGenerator) : M bool :=
  bind random (fun u => ret (Py.ltb u (application_rate self))).

Definition _select_effect_type (is_portrait : bool) : M KenBurnsType :=
  if is_portrait then
    choices1 [ZOOM_IN; ZOOM_OUT; PAN_UP; PAN_DOWN]
             [3 # 10; 3 # 10; 2 # 10; 2 # 10]
  else
    choices1 all_effects
             [25 # 100; 25 # 100; 15 # 100; 15 # 100; 5 # 100; 5 # 100;
              10 # 100].

Definition _select_easing : M EasingFunction :=
  choices1 [EASE_IN_OUT; EASE_OUT; EASE_IN; LINEAR]
           [5 # 10; 3 # 10; 15 # 100; 5 # 100].

Local Open Scope rand_scope.

(** [_generate_config].  Unpacking [zoom_min, zoom_max = self.zoom_range]
    raises [ValueError] unless the range has two entries. *)
Definition _generate_config (self : KenBurnsGenerator)
  (effect_type_ : KenBurnsType) : M KenBurnsConfig :=
  match zoom_range self with
  | [zoom_min; zoom_max] =>
      e <- _select_easing ;;
      speed <- choice (speed_variations self) ;;
      let config zs ze px py :=
        {| zoom_start := zs; zoom_end := ze; pan_x := px; pan_y := py;
           effect_type := effect_type_; easing := e;
           speed_multiplier := speed |} in
      match effect_type_ with
      | ZOOM_IN => ret (config zoom_min zoom_max 0 0)
      | ZOOM_OUT => ret (config zoom_max zoom_min 0 0)
      | PAN_LEFT =>
          ret (config (zoom_min + (2 # 100)) (zoom_min + (2 # 100))
                      (- pan_amount self) 0)
      | PAN_RIGHT =>
          ret (config (zoom_min + (2 # 100)) (zoom_min + (2 # 100))
                      (pan_amount self) 0)
      | PAN_UP =>
          ret (config (zoom_min + (2 # 100)) (zoom_min + (2 # 100))
                      0 (- pan_amount self))
      | PAN_DOWN =>
          ret (config (zoom_min + (2 # 100)) (zoom_min + (2 # 100))
                      0 (pan_amount self))
      | DIAGONAL =>
          px <- choice [- pan_amount self * (1 # 2);
                        pan_amount self * (1 # 2)] ;;
          py <- choice [- pan_amount self * (1 # 2);
                        pan_amount self * (1 # 2)] ;;
          ret (config zoom_min zoom_max px py)
      end
  | _ => raise Py.ValueError
  end.

Definition count_none (self : KenBurnsGenerator) : KenBurnsGenerator :=
  {| log := emit (log self) DEBUG "No Ken Burns effect applied";
     stats := stats self;
     stats_none := stats_none self + 1;
     application_rate := application_rate self;
     zoom_range := zoom_range self;
     pan_amount := pan_amount self;
     speed_variations := speed_variations self |}.

Definition count_effect (self : KenBurnsGenerator) (t : KenBurnsType)
  : KenBurnsGenerator :=
  {| log := emit (log self) DEBUG "Generated Ken Burns";
     stats := fun t' => if effect_eqb t' t then (stats self t' + 1)%Z
                        else stats self t';
     stats_none := stats_none self;
     application_rate := application_rate self;
     zoom_range := zoom_range self;
     pan_amount := pan_amount self;
     speed_variations := speed_variations self |}.

Definition generate_effect (self : KenBurnsGenerator) (is_portrait : bool)
  : M (option KenBurnsConfig * KenBurnsGenerator) :=
  apply <- should_apply self ;;
  if negb apply then ret (None, count_none self)
  else
    effect_type_ <- _select_effect_type is_portrait ;;
    config <- _generate_config self effect_type_ ;;
    ret (Some config, count_effect self effect_type_).

(** The calls that [_build_metadata] makes, one for every regular image,
    in order; [portraits] tells for each image whether it is higher than
    wide. *)
Fixpoint generate_effects (self : KenBurnsGenerator) (portraits : list bool)
  : M (list (option KenBurnsConfig) * KenBurnsGenerator) :=
  match portraits with
  | [] => ret ([], self)
  | is_portrait :: rest =>
      ' (c, self) <- generate_effect self is_portrait ;;
      ' (cs, self) <- generate_effects self rest ;;
      ret (c :: cs, self)
  end.

(** The dictionary that [get_statistics] returns when it is not empty. *)
Record statistics := {
  total_images : Z;
  effects_applied : Z;
  no_effect : Z;
  application_rate_percent : Q;
  effect_distribution : list (string * Z)
}.

(** [sum(self.stats.values())] *)
Definition stats_total (self : KenBurnsGenerator) : Z :=
  (fold_right Z.add 0 (map (stats self) all_effects) + stats_none self)%Z.

Definition get_statistics (self : KenBurnsGenerator) : option statistics :=
  let total := stats_total self in
  if (total =? 0)%Z then None
  else
    Some {| total_images := total;
            effects_applied := total - stats_none self;
            no_effect := stats_none self;
            application_rate_percent :=
              (inject_Z (total - stats_none self) / inject_Z total) * 100;
            effect_distribution :=
              map (fun t => (effect_value t, stats self t))
                  (filter (fun t => (0 <? stats self t)%Z) all_effects) |}.

End KenBurns.

(* ================================================================== *)
(** * Facts about the numeric helpers *)
(* ================================================================== *)

Module PyFacts.

Lemma ltb_true (x y : Q) : Py.ltb x y = true <-> x < y.
Proof.
  unfold Py.ltb. rewrite negb_true_iff.
  split; intro H.
  - apply Qnot_le_lt. intro L. apply Qle_bool_iff in L. congruence.
  - destruct (Qle_bool y x) eqn:E; [|reflexivity].
    apply Qle_bool_iff in E. exfalso. apply (Qlt_not_le _ _ H E).
Qed.

Lemma ltb_false (x y : Q) : Py.ltb x y = false <-> y <= x.
Proof.
  unfold Py.ltb. rewrite negb_false_iff. apply Qle_bool_iff.
Qed.

Lemma gtb_true (x y : Q) : Py.gtb x y = true <-> y < x.
Proof. apply ltb_true. Qed.

Lemma gtb_false (x y : Q) : Py.gtb x y = false <-> x <= y.
Proof. apply ltb_false. Qed.


Lemma leb_false (x y : Q) : Py.leb x y = false <-> y < x.
Proof.
  unfold Py.leb. split; intro H.
  - apply Qnot_le_lt. intro L. apply Qle_bool_iff in L. congruence.
  - destruct (Qle_bool x y) eqn:E; [|reflexivity].
    apply Qle_bool_iff in E. exfalso. apply (Qlt_not_le _ _ H E).
Qed.

Lemma div_defined (x y : Q) : ~ y == 0 -> Py.div x y = Some (x / y).
Proof.
  intro H. unfold Py.div, Py.eqb.
  destruct (Qeq_bool y 0) eqn:E; [|reflexivity].
  apply Qeq_bool_iff in E. contradiction.
Qed.

Lemma div_by_zero (x y : Q) : y == 0 -> Py.div x y = None.
Proof.
  intro H. unfold Py.div, Py.eqb.
  apply Qeq_bool_iff in H. now rewrite H.
Qed.

End PyFacts.

(* ================================================================== *)
(** * Timeline synthesis: reconciliation against the audio length *)
(* ================================================================== *)

Module TimingSpec.

Import Timing.

Section Reconciliation.

Variable self : TimingCalculator.
Variable lg : logger.
Variable n : Z.

Let T := audio_duration self.
Let a1 := OPENING_PART1_DURATION self.
Let a2 := OPENING_PART2_DURATION self.
Let d0 := IMAGE_DURATION self.
Let Cmin := MIN_CLOSING_DURATION self.

(** The closing time left by the nominal image duration, and the time left
    for images once the minimum closing is set aside. *)
Definition naive_closing : Q := T - a1 - a2 - inject_Z n * d0.
Definition available_time : Q := T - a1 - a2 - Cmin.

(** The nominal schedule is kept. *)
Definition accepts_nominal : Prop :=
  exists o, calculate_timings self lg n = inr o
    /\ t_image_duration (result o) = d0
    /\ IMAGE_DURATION (self' o) = d0
    /\ closing (result o) = naive_closing
    /\ total_video (result o) == T.


(** The error branch: nothing is reduced, the closing is clamped. *)
Definition clamps_closing : Prop :=
  exists o, calculate_timings self lg n = inr o
    /\ logged_at ERROR (log o) = true
    /\ t_image_duration (result o) = d0
    /\ closing (result o) = Cmin
    /\ total_video (result o) == a1 + a2 + inject_Z n * d0 + Cmin
    /\ T < total_video (result o).


Lemma nominal_branch : Cmin <= naive_closing -> accepts_nominal.
Proof.
  intro H. apply PyFacts.ltb_false in H.
  unfold accepts_nominal, calculate_timings.
  fold T a1 a2 d0 Cmin. fold naive_closing. rewrite H.
  eexists. split; [reflexivity|]. cbn.
  repeat split; try reflexivity.
  unfold naive_closing, T, a1, a2, d0. ring.
Qed.


Lemma clamped_branch :
  naive_closing < Cmin -> available_time <= 0 -> clamps_closing.
Proof.
  intros H1 H2. pose proof H1 as H1'.
  apply PyFacts.ltb_true in H1. apply PyFacts.gtb_false in H2.
  unfold clamps_closing, calculate_timings.
  fold T a1 a2 d0 Cmin. fold naive_closing. rewrite H1.
  fold available_time. rewrite H2.
  eexists. split; [reflexivity|]. cbn.
  split.
  { unfold log_timing_breakdown, logged_at, emit.
    match goal with |- context [if ?b then _ else _] => destruct b end;
      rewrite !existsb_app; cbn; rewrite ?orb_true_r; reflexivity. }
  repeat split; try reflexivity.
  unfold naive_closing, T, a1, a2, d0, Cmin in *. lra.
Qed.

End Reconciliation.

(** The two scenarios of the specification: 60 s and 40 s of audio with the
    default settings and seven regular images. *)
Definition defaults : timing_config :=
  {| opening_part1_duration := None; opening_part2_duration := None;
     duration_per_image := None; image_duration := None;
     min_closing_duration := None |}.

Example scenario_60 :
  exists o, calculate_timings (__init__ 60 defaults) [] 7 = inr o
    /\ t_image_duration (result o) == 6 /\ closing (result o) == 9
    /\ total_video (result o) == 60.
Proof. eexists. split; [reflexivity|]. cbn. repeat split; reflexivity. Qed.

Example scenario_40 :
  exists o, calculate_timings (__init__ 40 defaults) [] 7 = inr o
    /\ t_image_duration (result o) == 23 # 7 /\ closing (result o) == 8
    /\ total_video (result o) == 40.
Proof. eexists. split; [reflexivity|]. cbn. repeat split; reflexivity. Qed.



(** C4.  With no regular image the division by the image count is never
    evaluated: [calculate_timings] returns a result and does not raise
    [ZeroDivisionError], whatever the audio duration and the settings.  The
    closing then equals [T - a1 - a2], so a closing below the minimum
    leaves no positive time for images and the [available_time > 0] branch
    that holds the division is not entered. *)
Theorem calculate_timings_no_images (self : TimingCalculator) (lg : logger) :
  (exists o, calculate_timings self lg 0 = inr o)
  /\ (naive_closing self 0 < MIN_CLOSING_DURATION self ->
      available_time self < 0
      /\ Py.div (available_time self) (inject_Z 0) = None
      /\ clamps_closing self lg 0).
Proof.
  assert (E : naive_closing self 0 == available_time self + MIN_CLOSING_DURATION self).
  { unfold naive_closing, available_time. ring. }
  split.
  - destruct (Qlt_le_dec (naive_closing self 0) (MIN_CLOSING_DURATION self)) as [H|H].
    + assert (H2 : available_time self <= 0) by (rewrite E in H; lra).
      destruct (clamped_branch self lg 0 H H2) as [o [Ho _]]. now exists o.
    + destruct (nominal_branch self lg 0 H) as [o [Ho _]]. now exists o.
  - intro H.
    assert (H2 : available_time self < 0) by (rewrite E in H; lra).
    split; [exact H2|]. split; [reflexivity|].
    apply clamped_branch; [exact H | lra].
Qed.

Lemma calculate_timings_no_images_witness :
  naive_closing (__init__ 10 defaults) 0 < MIN_CLOSING_DURATION (__init__ 10 defaults)
  /\ clamps_closing (__init__ 10 defaults) [] 0.
Proof.
  assert (H : naive_closing (__init__ 10 defaults) 0
              < MIN_CLOSING_DURATION (__init__ 10 defaults))
    by (vm_compute; reflexivity).
  split; [exact H|].
  exact (proj2 (proj2 (proj2 (calculate_timings_no_images
                                (__init__ 10 defaults) []) H))).
Defined.

End TimingSpec.

(* ================================================================== *)
(** * Timeline synthesis: what every returned schedule satisfies *)
(* ================================================================== *)

Module TimingMore.

Import Timing TimingSpec.

(** [sum(durations)] *)
Definition total (durations : list Q) : Q := fold_right Qplus 0 durations.













End TimingMore.

(* ================================================================== *)
(** * Facts about the random source *)
(* ================================================================== *)

Module RandomFacts.

Import Random.

Lemma bind_inr {A B} (m : M A) (k : A -> M B) (g g' : rng) (b : B) :
  bind m k g = inr (b, g') ->
  exists a g1, m g = inr (a, g1) /\ k a g1 = inr (b, g').
Proof.
  unfold bind. destruct (m g) as [e|[a g1]]; [discriminate|]. eauto.
Qed.

Lemma ret_inr {A} (a b : A) (g g' : rng) :
  ret a g = inr (b, g') -> a = b /\ g = g'.
Proof. unfold ret. intro H. injection H as -> ->. now split. Qed.

Lemma random_total (g : rng) :
  exists u g', random g = inr (u, g') /\ 0 <= u /\ u < 1.
Proof.
  unfold random, bind, next_word, ret. do 2 eexists.
  split; [reflexivity|].
  set (w := tape g (pos g)).
  assert (B : (Z.of_N (w mod Npos two53) < Zpos two53)%Z).
  { pose proof (N.mod_upper_bound w (Npos two53) ltac:(discriminate)) as U.
    lia. }
  assert (B0 : (0 <= Z.of_N (w mod Npos two53))%Z) by apply N2Z.is_nonneg.
  split; unfold Qle, Qlt; cbn [Qnum Qden]; rewrite ?Z.mul_1_r, ?Z.mul_1_l;
    [exact B0 | exact B].
Qed.

Lemma uniform_total (a b : Q) (g : rng) :
  exists u g', uniform a b g = inr (a + (b - a) * u, g') /\ 0 <= u /\ u < 1.
Proof.
  destruct (random_total g) as (u & g' & E & H0 & H1).
  exists u, g'. unfold uniform, bind. rewrite E. now split.
Qed.

Definition advance (g : rng) : rng := {| tape := tape g; pos := S (pos g) |}.

Lemma choice_cons {A} (d : A) (l : list A) (g : rng) :
  choice (d :: l) g
  = inr (nth (N.to_nat (tape g (pos g) mod N.of_nat (List.length (d :: l))))
              (d :: l) d,
         advance g).
Proof. reflexivity. Qed.

Lemma choice_In {A} (l : list A) (g g' : rng) (a : A) :
  choice l g = inr (a, g') -> In a l.
Proof.
  destruct l as [|d l]; [discriminate|].
  rewrite choice_cons.
  assert (I : In (nth (N.to_nat (tape g (pos g)
                                  mod N.of_nat (List.length (d :: l))))
                      (d :: l) d) (d :: l)).
  { apply nth_In.
    pose proof (N.mod_upper_bound (tape g (pos g))
                  (N.of_nat (List.length (d :: l)))) as U.
    cbn [List.length] in *. lia. }
  intro H. injection H as E _. rewrite <- E. exact I.
Qed.

Lemma choice_total {A} (l : list A) (g : rng) :
  l <> [] -> exists a g', choice l g = inr (a, g').
Proof.
  destruct l as [|d l]; [congruence|]. intros _.
  rewrite choice_cons. eauto.
Qed.

Lemma bisect_loop_bounds (turns : nat) (a : list Q) (x : Q) :
  forall lo hi, (lo <= hi)%nat ->
    (lo <= bisect_loop turns a x lo hi <= hi)%nat.
Proof.
  induction turns as [|turns IH]; intros lo hi L; cbn [bisect_loop]; [lia|].
  destruct (lo <? hi)%nat eqn:E; [|lia].
  apply Nat.ltb_lt in E.
  assert (M1 : (lo <= (lo + hi) / 2)%nat)
    by (apply Nat.div_le_lower_bound; lia).
  assert (M2 : ((lo + hi) / 2 < hi)%nat)
    by (apply Nat.Div0.div_lt_upper_bound; lia).
  destruct (Py.ltb x (nth ((lo + hi) / 2) a 0)).
  - specialize (IH lo ((lo + hi) / 2)%nat M1). lia.
  - assert (M3 : ((lo + hi) / 2 + 1 <= hi)%nat) by lia.
    specialize (IH _ hi M3). lia.
Qed.

(** The number of turns given to the bisection is enough: more turns do
    not change its answer. *)
Lemma bisect_loop_enough (a : list Q) (x : Q) (t1 : nat) :
  forall t2 lo hi, (hi - lo <= t1)%nat -> (hi - lo <= t2)%nat ->
    bisect_loop t1 a x lo hi = bisect_loop t2 a x lo hi.
Proof.
  induction t1 as [|t1 IH]; intros t2 lo hi L1 L2.
  - destruct t2 as [|t2]; cbn [bisect_loop]; [reflexivity|].
    replace (lo <? hi)%nat with false; [reflexivity|].
    symmetry. apply Nat.ltb_ge. lia.
  - destruct t2 as [|t2]; cbn [bisect_loop].
    + replace (lo <? hi)%nat with false; [reflexivity|].
      symmetry. apply Nat.ltb_ge. lia.
    + destruct (lo <? hi)%nat eqn:E; [|reflexivity].
      apply Nat.ltb_lt in E.
      assert (M1 : (lo <= (lo + hi) / 2)%nat)
        by (apply Nat.div_le_lower_bound; lia).
      assert (M2 : ((lo + hi) / 2 < hi)%nat)
        by (apply Nat.Div0.div_lt_upper_bound; lia).
      destruct (Py.ltb x (nth ((lo + hi) / 2) a 0)); apply IH; lia.
Qed.

Lemma choices1_In {A} (population : list A) (ws : list Q) (g g' : rng) (a : A) :
  choices1 population ws g = inr (a, g') -> In a population.
Proof.
  destruct population as [|d l]; [discriminate|].
  unfold choices1.
  destruct (negb _); [discriminate|].
  destruct (Py.leb _ _); [discriminate|].
  unfold bind. destruct (random_total g) as (u & g1 & E & _). rewrite E.
  unfold ret.
  match goal with |- inr (nth ?i ?p ?d0, _) = _ -> _ =>
    assert (I : In (nth i p d0) p) end.
  { apply nth_In. unfold bisect.
    match goal with |- (bisect_loop ?t ?a ?x ?lo ?hi < _)%nat =>
      pose proof (bisect_loop_bounds t a x lo hi ltac:(lia)) as B end.
    cbn [List.length] in *. lia. }
  intro H. injection H as E' _. rewrite <- E'. exact I.
Qed.

End RandomFacts.

(* ================================================================== *)
(** * Transition policy: anti-repetition *)
(* ================================================================== *)

Module TransitionSpec.

Import Random Transitions RandomFacts.

(** ** Windows of the category history *)




(** A category is configured with a weight other than zero. *)
Definition nonzero_weight (w : weight_table) (c : TransitionCategory) : Prop :=
  exists q, w c = Some q /\ ~ q == 0.

Definition two_nonzero_weights (w : weight_table) : Prop :=
  exists a b, a <> b /\ nonzero_weight w a /\ nonzero_weight w b.

Lemma last_n_app {A} (pre l : list A) :
  Py.last_n (List.length l) (pre ++ l) = l.
Proof.
  unfold Py.last_n. rewrite length_app.
  replace (List.length pre + List.length l - List.length l)%nat
    with (List.length pre + 0)%nat by lia.
  rewrite skipn_app, Nat.add_0_r, skipn_all.
  replace (List.length pre - List.length pre)%nat with 0%nat by lia.
  reflexivity.
Qed.



(** ** [_select_category] *)

Lemma weights_of_present (w : weight_table) (cats : list TransitionCategory)
  (g : rng) :
  Forall (fun c => has_key w c = true) cats ->
  exists ws, weights_of w cats g = inr (ws, g)
    /\ Forall2 (fun c v => w c = Some v) cats ws.
Proof.
  induction 1 as [|c cats Hc _ IH]; cbn.
  - exists []. split; [reflexivity | constructor].
  - unfold has_key in Hc. destruct (w c) as [v|] eqn:E; [|discriminate].
    destruct IH as (ws & E1 & F). exists (v :: ws).
    unfold bind. rewrite E1. split; [reflexivity | now constructor].
Qed.

Lemma weights_of_pure (w : weight_table) (cats : list TransitionCategory)
  (g g' : rng) (ws : list Q) :
  weights_of w cats g = inr (ws, g') -> g' = g.
Proof.
  revert ws g'. induction cats as [|c cats IH]; cbn; intros ws g' H.
  - now injection H as _ <-.
  - destruct (w c); [|discriminate].
    apply bind_inr in H as (vs & g1 & H1 & H2).
    apply IH in H1. apply ret_inr in H2 as [_ <-]. exact H1.
Qed.

(** The categories that are both different from [cur] and configured. *)
Definition other_configured (w : weight_table) (cur : TransitionCategory)
  : list TransitionCategory :=
  filter (fun cat => negb (category_eqb cat cur) && has_key w cat)
         all_categories.

Lemma category_eqb_neq (a b : TransitionCategory) :
  negb (category_eqb a b) = true <-> a <> b.
Proof.
  unfold category_eqb. destruct (category_eq_dec a b); cbn; split;
    intros; congruence.
Qed.

Lemma other_configured_spec (w : weight_table) (cur c : TransitionCategory) :
  In c (other_configured w cur) <-> c <> cur /\ has_key w c = true.
Proof.
  unfold other_configured. rewrite filter_In, andb_true_iff, category_eqb_neq.
  split; [tauto|]. intros [H1 H2]. split; [|tauto].
  destruct c; cbn; tauto.
Qed.

(** With two non-zero weights, a category without a key leaves exactly the
    two weighted ones; whichever of them was repeated, the other one is
    alone in [other_configured] and its weight does not sum to zero. *)
Lemma unconfigured_forces_weighted_draw (w : weight_table)
  (cur c : TransitionCategory) :
  two_nonzero_weights w -> c <> cur -> has_key w c = false ->
  exists z q, other_configured w cur = [z] /\ w z = Some q /\ ~ q == 0.
Proof.
  intros (a & b & Hab & (qa & Ea & Na) & (qb & Eb & Nb)) Hc Hk.
  unfold has_key in Hk.
  assert (Hca : c <> a) by (intros ->; rewrite Ea in Hk; discriminate).
  assert (Hcb : c <> b) by (intros ->; rewrite Eb in Hk; discriminate).
  destruct (w c) eqn:Ec; [discriminate|].
  unfold other_configured, has_key.
  destruct a, b, c, cur; try congruence; cbn;
    rewrite ?Ea, ?Eb, ?Ec; cbn; eauto.
Qed.

Lemma sum_single (q : Q) : sum [q] == q.
Proof. unfold sum. cbn. ring. Qed.

Lemma select_category_spec (s s' : TransitionSelector) (g g' : rng)
  (c : TransitionCategory) :
  _select_category s g = inr ((c, s'), g') ->
  (exists lg, s' = set_log s lg)
  /\ (forall cur, repeated_category s = Some cur ->
        c <> cur
        /\ (two_nonzero_weights (category_weights s) ->
            has_key (category_weights s) c = true)).
Proof.
  unfold _select_category. intro H.
  destruct (repeated_category s) as [cur|] eqn:R.
  - fold (other_configured (category_weights s) cur) in H.
    apply bind_inr in H as (ws & g1 & Hw & H).
    pose proof (weights_of_pure _ _ _ _ _ Hw) as ->.
    apply bind_inr in H as (c0 & g2 & Hc & H).
    apply ret_inr in H as [H _]. injection H as -> <-.
    split; [eauto|].
    intros cur' [= <-].
    destruct (is_empty (other_configured (category_weights s) cur)
              || is_empty ws || Py.eqb (sum ws) 0) eqn:F.
    + (* the uniform fallback over the other categories *)
      assert (N : c <> cur).
      { cbn [negb] in Hc.
        destruct (is_empty (filter _ all_categories)) eqn:Em in Hc;
          cbn [negb] in Hc.
        - destruct cur; discriminate.
        - apply choice_In in Hc. apply filter_In in Hc as [_ Hc].
          now apply category_eqb_neq. }
      split; [exact N|]. intro T.
      destruct (has_key (category_weights s) c) eqn:K; [reflexivity|].
      exfalso.
      destruct (unconfigured_forces_weighted_draw _ _ _ T N K)
        as (z & q & Ez & Eq & Nq).
      rewrite Ez in Hw, F. cbn in Hw. rewrite Eq in Hw.
      unfold bind, ret in Hw. injection Hw as <-.
      cbn [is_empty orb] in F. unfold Py.eqb in F.
      apply Qeq_bool_iff in F. rewrite sum_single in F. contradiction.
    + apply choices1_In in Hc. apply other_configured_spec in Hc. tauto.
  - split; [|discriminate].
    apply bind_inr in H as (ws & g1 & Hw & H).
    destruct (is_empty _ || is_empty ws || Py.eqb (sum ws) 0).
    + apply bind_inr in H as (c0 & g2 & _ & H).
      apply ret_inr in H as [H _]. injection H as _ <-. eauto.
    + apply bind_inr in H as (c0 & g2 & _ & H).
      apply ret_inr in H as [H _]. injection H as _ <-.
      exists (log s). now destruct s.
Qed.

(** ** [select_next] *)

(** The pool that [random.choice] finally draws from. *)
Definition draw_pool (s : TransitionSelector) (cat : TransitionCategory)
  : list Transition :=
  let pool := category_pool s cat in
  if is_empty (filtered_pool s pool) then pool else filtered_pool s pool.

Lemma select_next_spec (s s' : TransitionSelector) (g g' : rng)
  (t : Transition) :
  select_next s g = inr ((t, s'), g') ->
  exists cat,
    category_history s' = category_history s ++ [cat]
    /\ history s' = history s ++ [name t]
    /\ category_weights s' = category_weights s
    /\ transitions s' = transitions s
    /\ (forall cur, repeated_category s = Some cur ->
          cat <> cur
          /\ (two_nonzero_weights (category_weights s) ->
              has_key (category_weights s) cat = true))
    /\ In t (draw_pool s cat).
Proof.
  unfold select_next. intro H.
  apply bind_inr in H as ([cat s1] & g1 & Hc & H).
  apply select_category_spec in Hc as [[lg ->] Hsw].
  apply bind_inr in H as (t0 & g2 & Ht & H).
  apply ret_inr in H as [H _]. injection H as -> <-.
  apply choice_In in Ht.
  exists cat. split; [reflexivity|]. split; [reflexivity|].
  split; [reflexivity|]. split; [reflexivity|].
  split; [exact Hsw | exact Ht].
Qed.

Lemma is_empty_true {A} (l : list A) : is_empty l = true <-> l = [].
Proof. destruct l; cbn; split; congruence. Qed.

Lemma name_in_spec (nm : string) (names : list string) :
  name_in nm names = true <-> In nm names.
Proof.
  unfold name_in. rewrite existsb_exists. split.
  - intros (x & I & E). apply String.eqb_eq in E. now subst.
  - intro I. exists nm. split; [assumption | apply String.eqb_refl].
Qed.

Lemma filtered_pool_spec (s : TransitionSelector) (pool : list Transition)
  (u : Transition) :
  In u (filtered_pool s pool)
  <-> In u pool /\ ~ In (name u) (Py.last_n 2 (history s)).
Proof.
  unfold filtered_pool. rewrite filter_In, negb_true_iff.
  rewrite <- name_in_spec.
  destruct (name_in (name u) (Py.last_n 2 (history s))); split;
    intros [? ?]; split; congruence.
Qed.

Lemma last_in_last_two {A} (pre : list A) (prev : A) :
  In prev (Py.last_n 2 (pre ++ [prev])).
Proof.
  destruct pre as [|a pre] using rev_ind.
  - cbn. now left.
  - clear IHpre. rewrite <- app_assoc.
    rewrite (last_n_app pre ([a] ++ [prev]) : Py.last_n 2 _ = _).
    cbn. tauto.
Qed.

(** ** What the selector promises *)

(** The exclusion rule of one call, for the category [cat] that was drawn:
    the filtered pool holds exactly the pool's transitions whose name is
    not among the two last names of the history; the selection comes from
    the filtered pool unless that is empty, and from the whole pool
    otherwise; the name just used before is not selected again as soon as
    the filtered pool has a candidate. *)
Definition excludes_recent (s : TransitionSelector) (cat : TransitionCategory)
  (t : Transition) : Prop :=
  let pool := category_pool s cat in
  let filtered := filtered_pool s pool in
  (forall u, In u filtered
             <-> In u pool /\ ~ In (name u) (Py.last_n 2 (history s)))
  /\ (filtered <> [] ->
      In t filtered /\ ~ In (name t) (Py.last_n 2 (history s)))
  /\ (filtered = [] -> In t pool)
  /\ ((1 <= List.length filtered)%nat ->
      forall pre prev, history s = pre ++ [prev] -> name t <> prev).



Lemma drawn_from_category (s : TransitionSelector) (cat : TransitionCategory)
  (t : Transition) :
  In t (draw_pool s cat) ->
  filter (fun u => category_eqb (category u) cat) (transitions s) <> [] ->
  category t = cat.
Proof.
  intros I NE.
  assert (P : In t (category_pool s cat)).
  { unfold draw_pool in I.
    destruct (is_empty (filtered_pool s (category_pool s cat))); [assumption|].
    now apply filtered_pool_spec in I. }
  unfold category_pool in P.
  destruct (is_empty _) eqn:E in P.
  - apply is_empty_true in E. contradiction.
  - apply filter_In in P as [_ P]. unfold category_eqb in P.
    now destruct (category_eq_dec (category t) cat).
Qed.



(** C6.  A call of [select_next] removes from the chosen category's pool
    the transitions named like one of the two last selections, draws from
    what is left when something is left and from the whole pool
    otherwise; hence the transition selected just before is not selected
    again whenever the filtered pool has a candidate. *)
Theorem select_next_excludes_recent (s s' : TransitionSelector) (g g' : rng)
  (t : Transition) (H : select_next s g = inr ((t, s'), g')) :
  exists cat,
    category_history s' = category_history s ++ [cat]
    /\ history s' = history s ++ [name t]
    /\ excludes_recent s cat t.
Proof.
  apply select_next_spec in H as (cat & Ec & Eh & _ & _ & _ & Hin).
  exists cat. split; [assumption|]. split; [assumption|].
  unfold excludes_recent, draw_pool in *.
  set (pool := category_pool s cat) in *.
  set (filtered := filtered_pool s pool) in *.
  assert (NE : filtered <> [] ->
               In t filtered /\ ~ In (name t) (Py.last_n 2 (history s))).
  { intro N. destruct (is_empty filtered) eqn:E.
    - apply is_empty_true in E. contradiction.
    - split; [assumption|]. now apply (filtered_pool_spec s pool t). }
  split; [intro u; apply filtered_pool_spec|].
  split; [exact NE|]. split.
  - intro E. rewrite E in Hin. exact Hin.
  - intros L pre prev Eh' Eq.
    assert (N : filtered <> []) by (destruct filtered; cbn in L; [lia|congruence]).
    destruct (NE N) as [_ Hn]. apply Hn.
    rewrite Eh', Eq. apply last_in_last_two.
Qed.

(** C10.  [should_add_anniversary_overlay] answers [False] for every
    index and total, in anniversary mode or not, and leaves the selector
    (so its [overlay_history] and [overlay_count]) and the random source
    as they were. *)
Theorem anniversary_overlay_disabled (s : TransitionSelector)
  (transition_index total_transitions : Z) (g : rng) :
  exists s', should_add_anniversary_overlay s transition_index
               total_transitions g = inr ((false, s'), g)
    /\ s' = s
    /\ overlay_history s' = overlay_history s
    /\ overlay_count s' = overlay_count s.
Proof. exists s. repeat split. Qed.

(** ** A concrete run *)

Definition demo_weights : list (string * Q) :=
  [("gentle"%string, 7 # 10); ("Dynamic"%string, 2 # 10);
   ("artistic"%string, 1 # 10)].

Definition demo_selector : TransitionSelector :=
  __init__ demo_weights [] false false.

Definition demo_rng : rng :=
  {| tape := fun k => (N.of_nat k * 3000000000000000 + 17)%N; pos := 0 |}.

(** The selector and the random source after [k] calls. *)
Definition demo_after (k : nat) : TransitionSelector * rng :=
  match select_many k demo_selector demo_rng with
  | inr ((_, s), g) => (s, g)
  | inl _ => (demo_selector, demo_rng)
  end.

Example demo_categories :
  category_history (fst (demo_after 12))
  = [GENTLE; GENTLE; GENTLE; ARTISTIC; GENTLE; GENTLE; ARTISTIC;
     GENTLE; GENTLE; ARTISTIC; GENTLE; GENTLE].
Proof. vm_compute. reflexivity. Qed.

Example demo_names :
  history (fst (demo_after 6))
  = ["fadewhite"; "vdslice"; "hblur"; "zoomin"; "circleclose";
     "pixelize"]%string.
Proof. vm_compute. reflexivity. Qed.


Lemma select_next_excludes_recent_witness :
  match select_next (fst (demo_after 3)) (snd (demo_after 3)) with
  | inr ((t, s'), _) =>
      exists cat,
        category_history s' = category_history (fst (demo_after 3)) ++ [cat]
        /\ history s' = history (fst (demo_after 3)) ++ [name t]
        /\ excludes_recent (fst (demo_after 3)) cat t
  | inl _ => False
  end.
Proof.
  destruct (select_next (fst (demo_after 3)) (snd (demo_after 3)))
    as [e|[[t s'] g']] eqn:E.
  - vm_compute in E. discriminate E.
  - exact (select_next_excludes_recent _ _ _ _ _ E).
Defined.

End TransitionSpec.

(* ================================================================== *)
(** * Transition policy: pools, statistics and failure-freedom *)
(* ================================================================== *)

Module TransitionMore.

Import Random Transitions RandomFacts TransitionSpec.

(** ** What a call leaves untouched *)

Lemma select_many_spec (k : nat) :
  forall (s s' : TransitionSelector) (g g' : rng) (ts : list Transition),
    select_many k s g = inr ((ts, s'), g') ->
    history s' = history s ++ map name ts
    /\ List.length (category_history s')
       = (List.length (category_history s) + k)%nat
    /\ List.length ts = k
    /\ transitions s' = transitions s
    /\ category_weights s' = category_weights s.
Proof.
  induction k as [|k IH]; intros s s' g g' ts H.
  - apply ret_inr in H as [H _]. injection H as <- <-.
    rewrite app_nil_r, Nat.add_0_r. auto.
  - cbn [select_many] in H.
    apply bind_inr in H as ([t s1] & g1 & H1 & H).
    apply bind_inr in H as ([ts' s2] & g2 & H2 & H).
    apply ret_inr in H as [H _]. injection H as <- <-.
    apply select_next_spec in H1 as (cat & Ec & Eh & Ew & Et & _).
    apply IH in H2 as (Hh & Hc & Hl & Ht & Hw).
    rewrite Hh, Eh, Hc, Ec, Ht, Et, Hw, Ew, length_app, <- app_assoc.
    cbn. repeat split; try reflexivity; lia.
Qed.

(** ** Statistics *)







(** ** The built-in pools *)

(** Every name in the history differs from the two names before it. *)
Definition spaced (h : list string) : Prop :=
  forall pre nm post, h = pre ++ [nm] ++ post ->
    ~ In nm (Py.last_n 2 pre).

Lemma spaced_nil : spaced [].
Proof. intros pre nm post E. destruct pre; discriminate. Qed.

Lemma spaced_snoc (h : list string) (nm : string) :
  spaced h -> ~ In nm (Py.last_n 2 h) -> spaced (h ++ [nm]).
Proof.
  intros S N pre x post E.
  destruct post as [|z post'] using rev_ind.
  - apply app_inj_tail in E as [<- <-]. exact N.
  - clear IHpost'. rewrite !app_assoc in E.
    apply app_inj_tail in E as [E _]. rewrite <- app_assoc in E.
    now apply (S pre x post').
Qed.

Lemma last_n_short {A} (k : nat) (l : list A) :
  (List.length (Py.last_n k l) <= k)%nat.
Proof. unfold Py.last_n. rewrite length_skipn. lia. Qed.

(** A pool with three distinct names always keeps a candidate after the
    two most recent names are taken out. *)
Lemma pool_keeps_candidate (s : TransitionSelector) (pool : list Transition) :
  NoDup (map name pool) -> (3 <= List.length pool)%nat ->
  filtered_pool s pool <> [].
Proof.
  intros D L E.
  assert (I : incl (map name pool) (Py.last_n 2 (history s))).
  { intros nm Hin. apply in_map_iff in Hin as (t & <- & Ht).
    destruct (in_dec string_dec (name t) (Py.last_n 2 (history s)))
      as [Y|N]; [exact Y|].
    assert (F : In t (filtered_pool s pool))
      by (apply filtered_pool_spec; now split).
    rewrite E in F. destruct F. }
  pose proof (NoDup_incl_length D I) as B.
  pose proof (last_n_short 2 (history s)) as B2.
  rewrite length_map in B. lia.
Qed.

Definition full_pool : list Transition :=
  GENTLE_TRANSITIONS ++ DYNAMIC_TRANSITIONS ++ ARTISTIC_TRANSITIONS.

Definition simple_pool : list Transition := firstn 6 GENTLE_TRANSITIONS.

(** The selector draws from one of the two pools that [__init__] builds. *)
Definition built_in (s : TransitionSelector) : Prop :=
  transitions s = full_pool \/ transitions s = simple_pool.

Lemma distinct_by_nodup (l : list string) :
  nodup string_dec l = l -> NoDup l.
Proof. intros <-. apply NoDup_nodup. Qed.

Lemma built_in_pool_rich (s : TransitionSelector) (cat : TransitionCategory) :
  built_in s ->
  NoDup (map name (category_pool s cat))
  /\ (3 <= List.length (category_pool s cat))%nat.
Proof.
  unfold category_pool. intros [-> | ->]; destruct cat;
    (split; [apply distinct_by_nodup; vm_compute; reflexivity
            | vm_compute; lia]).
Qed.

Lemma built_in_init (weights : list (string * Q)) (lg : logger)
  (simple anniversary : bool) :
  built_in (__init__ weights lg simple anniversary).
Proof.
  unfold built_in, __init__.
  destruct (convert_weights weights empty_weights lg) as [[w any] lg1].
  destruct any; destruct simple; cbn; auto.
Qed.

Lemma select_many_spaced (k : nat) :
  forall (s s' : TransitionSelector) (g g' : rng) (ts : list Transition),
    built_in s -> spaced (history s) ->
    select_many k s g = inr ((ts, s'), g') ->
    spaced (history s').
Proof.
  induction k as [|k IH]; intros s s' g g' ts B S H.
  - apply ret_inr in H as [H _]. now injection H as _ <-.
  - cbn [select_many] in H.
    apply bind_inr in H as ([t s1] & g1 & H1 & H).
    apply bind_inr in H as ([ts' s2] & g2 & H2 & H).
    apply ret_inr in H as [H _]. injection H as _ <-.
    apply select_next_spec in H1 as (cat & _ & Eh & _ & Et & _ & Hin).
    apply (IH s1 s2 g1 g2 ts'); [| |exact H2].
    + unfold built_in. now rewrite Et.
    + rewrite Eh. apply spaced_snoc; [exact S|].
      destruct (built_in_pool_rich s cat B) as [D L].
      pose proof (pool_keeps_candidate s _ D L) as NE.
      unfold draw_pool in Hin.
      destruct (is_empty (filtered_pool s (category_pool s cat))) eqn:Em.
      * apply is_empty_true in Em. contradiction.
      * now apply filtered_pool_spec in Hin.
Qed.

(** X5.  With the pools that [__init__] builds, in simple mode or not, no
    selected name is one of the two names selected just before it, for
    any weights and any number of calls; the history is the list of the
    names returned. *)
Theorem names_never_within_two (weights : list (string * Q)) (lg : logger)
  (simple anniversary : bool) (k : nat) (g g' : rng)
  (ts : list Transition) (s' : TransitionSelector) :
  select_many k (__init__ weights lg simple anniversary) g
  = inr ((ts, s'), g') ->
  history s' = map name ts /\ spaced (history s').
Proof.
  intro H. split.
  - apply select_many_spec in H as (Hh & _). rewrite Hh.
    unfold __init__.
    destruct (convert_weights weights empty_weights lg) as [[w any] lg1].
    destruct any; reflexivity.
  - apply (select_many_spaced k _ _ _ _ _ (built_in_init _ _ _ _)) in H;
      [exact H|].
    unfold __init__.
    destruct (convert_weights weights empty_weights lg) as [[w any] lg1].
    destruct any; exact spaced_nil.
Qed.

Lemma names_never_within_two_witness :
  match select_many 12 demo_selector demo_rng with
  | inr ((ts, s'), _) => history s' = map name ts /\ spaced (history s')
  | inl _ => False
  end.
Proof.
  destruct (select_many 12 demo_selector demo_rng) as [e|[[ts s'] g']] eqn:E.
  - vm_compute in E. discriminate E.
  - exact (names_never_within_two demo_weights [] false false 12 demo_rng g'
             ts s' E).
Defined.

(** X6.  In simple mode every transition returned is one of the six names of
    [get_simple_transitions], all gentle, whatever category was recorded;
    with the full pool every transition returned belongs to the category
    recorded for it. *)
Theorem selections_by_mode (weights : list (string * Q)) (lg : logger)
  (simple anniversary : bool) (k : nat) (g g' : rng)
  (ts : list Transition) (s' : TransitionSelector) :
  select_many k (__init__ weights lg simple anniversary) g
  = inr ((ts, s'), g') ->
  if simple
  then Forall (fun t => In (name t) get_simple_transitions
                        /\ category t = GENTLE) ts
  else Forall2 (fun t c => category t = c) ts (category_history s').
Proof.
  assert (G : forall k s s' g g' ts,
             select_many k s g = inr ((ts, s'), g') ->
             (transitions s = simple_pool ->
              Forall (fun t => In t simple_pool) ts)
             /\ (transitions s = full_pool ->
                 exists cs, category_history s' = category_history s ++ cs
                            /\ Forall2 (fun t c => category t = c) ts cs)).
  { clear. induction k as [|k IH]; intros s s' g g' ts H.
    - apply ret_inr in H as [H _]. injection H as <- <-.
      split; [constructor|]. exists []. rewrite app_nil_r. split; constructor.
    - cbn [select_many] in H.
      apply bind_inr in H as ([t s1] & g1 & H1 & H).
      apply bind_inr in H as ([ts' s2] & g2 & H2 & H).
      apply ret_inr in H as [H _]. injection H as <- <-.
      apply select_next_spec in H1 as (cat & Ec & _ & _ & Et & _ & Hin).
      destruct (IH _ _ _ _ _ H2) as [IH1 IH2]. rewrite Et in IH1, IH2.
      split.
      + intro P. constructor; [|now apply IH1].
        assert (Q0 : In t (category_pool s cat)).
        { unfold draw_pool in Hin.
          destruct (is_empty (filtered_pool s (category_pool s cat)));
            [assumption|]. now apply filtered_pool_spec in Hin. }
        unfold category_pool in Q0.
        destruct (is_empty _) in Q0; [now rewrite P in Q0|].
        apply filter_In in Q0 as [Q0 _]. now rewrite P in Q0.
      + intro P. destruct (IH2 P) as (cs & E & F).
        exists (cat :: cs). rewrite E, Ec, <- app_assoc. split; [reflexivity|].
        constructor; [|exact F].
        apply (drawn_from_category s cat t Hin).
        rewrite P. destruct cat; vm_compute; discriminate. }
  intro H. destruct (G _ _ _ _ _ _ H) as [G1 G2].
  assert (T : transitions (__init__ weights lg simple anniversary)
              = if simple then simple_pool else full_pool).
  { unfold __init__.
    destruct (convert_weights weights empty_weights lg) as [[w any] lg1].
    destruct any; reflexivity. }
  assert (C0 : category_history (__init__ weights lg simple anniversary) = []).
  { unfold __init__.
    destruct (convert_weights weights empty_weights lg) as [[w any] lg1].
    destruct any; reflexivity. }
  destruct simple.
  - specialize (G1 T). eapply Forall_impl; [|exact G1].
    intros t I. cbn in I.
    repeat (destruct I as [<-|I]; [split; [vm_compute; tauto | reflexivity]|]).
    destruct I.
  - destruct (G2 T) as (cs & E & F). rewrite C0 in E. cbn in E. now rewrite E.
Qed.

Lemma selections_by_mode_witness :
  match select_many 8 (__init__ demo_weights [] true false) demo_rng with
  | inr ((ts, _), _) =>
      Forall (fun t => In (name t) get_simple_transitions
                       /\ category t = GENTLE) ts
  | inl _ => False
  end.
Proof.
  destruct (select_many 8 (__init__ demo_weights [] true false) demo_rng)
    as [e|[[ts s'] g']] eqn:E.
  - vm_compute in E. discriminate E.
  - exact (selections_by_mode demo_weights [] true false 8 demo_rng g'
             ts s' E).
Defined.

(** ** Failure-freedom *)

Lemma accumulate_from_last (ws : list Q) :
  forall acc, last (acc :: accumulate_from acc ws) 0 = fold_left Qplus ws acc.
Proof.
  induction ws as [|w ws IH]; intro acc; [reflexivity|].
  cbn [accumulate_from fold_left]. rewrite <- IH. reflexivity.
Qed.

Lemma accumulate_from_length (ws : list Q) :
  forall acc, List.length (accumulate_from acc ws) = List.length ws.
Proof.
  induction ws as [|w ws IH]; intro acc; cbn; [reflexivity|].
  now rewrite IH.
Qed.

Lemma accumulate_length (ws : list Q) :
  List.length (accumulate ws) = List.length ws.
Proof.
  destruct ws as [|w ws]; cbn; [reflexivity|].
  now rewrite accumulate_from_length.
Qed.

Lemma fold_left_Qplus_eq (ws : list Q) :
  forall a b, a == b -> fold_left Qplus ws a == fold_left Qplus ws b.
Proof.
  induction ws as [|w ws IH]; intros a b E; cbn; [exact E|].
  apply IH. now rewrite E.
Qed.

Lemma fold_left_Qplus_nonneg (ws : list Q) :
  Forall (fun w => 0 <= w) ws ->
  forall a, 0 <= a -> 0 <= fold_left Qplus ws a.
Proof.
  induction 1 as [|w ws Hw _ IH]; intros a Ha; cbn; [exact Ha|].
  apply IH. lra.
Qed.

(** The total that [random.choices] tests is the sum that
    [_select_category] tests. *)
Lemma accumulate_total (ws : list Q) :
  last (accumulate ws) 0 + 0 == sum ws.
Proof.
  destruct ws as [|w ws]; [reflexivity|].
  unfold accumulate, sum. rewrite accumulate_from_last.
  cbn [fold_left]. rewrite Qplus_0_r.
  apply fold_left_Qplus_eq. ring.
Qed.

Lemma choices1_total {A} (population : list A) (ws : list Q) (g : rng) :
  population <> [] ->
  List.length ws = List.length population ->
  Forall (fun w => 0 <= w) ws ->
  Py.eqb (sum ws) 0 = false ->
  exists a g', choices1 population ws g = inr (a, g').
Proof.
  intros NE L P Z.
  destruct population as [|d l]; [congruence|].
  unfold choices1. rewrite accumulate_length, L, Nat.eqb_refl. cbn [negb].
  assert (T : Py.leb (last (accumulate ws) 0 + 0) 0 = false).
  { unfold Py.leb. destruct (Qle_bool _ 0) eqn:E; [|reflexivity].
    apply Qle_bool_iff in E. rewrite accumulate_total in E.
    pose proof (fold_left_Qplus_nonneg ws P 0 ltac:(lra)) as N.
    fold (sum ws) in N.
    assert (Z0 : sum ws == 0) by lra.
    apply Qeq_bool_iff in Z0. unfold Py.eqb in Z. congruence. }
  rewrite T. destruct (random_total g) as (u & g1 & E & _).
  unfold bind. rewrite E. unfold ret. eauto.
Qed.

Definition nonnegative (w : weight_table) : Prop :=
  forall c v, w c = Some v -> 0 <= v.

Lemma configured_weights (w : weight_table) (cats : list TransitionCategory)
  (g : rng) :
  nonnegative w ->
  Forall (fun c => has_key w c = true) cats ->
  exists ws, weights_of w cats g = inr (ws, g)
    /\ List.length ws = List.length cats
    /\ Forall (fun v => 0 <= v) ws.
Proof.
  intros N F. destruct (weights_of_present w cats g F) as (ws & E & F2).
  exists ws. split; [exact E|]. split.
  - symmetry. exact (Forall2_length F2).
  - clear E F. induction F2 as [|c v cats ws H _ IH]; constructor; eauto.
Qed.

Lemma select_category_total (s : TransitionSelector) (g : rng) :
  nonnegative (category_weights s) ->
  exists c lg g', _select_category s g = inr ((c, set_log s lg), g').
Proof.
  intro N. unfold _select_category.
  destruct (repeated_category s) as [cur|].
  - set (av := filter _ all_categories).
    assert (F : Forall (fun c => has_key (category_weights s) c = true) av).
    { apply Forall_forall. intros c Hc. apply filter_In in Hc as [_ Hc].
      now apply andb_true_iff in Hc as [_ Hc]. }
    destruct (configured_weights _ av g N F) as (ws & E & L & P).
    unfold bind at 1. rewrite E.
    destruct (is_empty av || is_empty ws || Py.eqb (sum ws) 0) eqn:C.
    + assert (X : exists c g', (if negb (is_empty (filter
                   (fun cat => negb (category_eqb cat cur)) all_categories))
                 then choice (filter (fun cat => negb (category_eqb cat cur))
                                all_categories)
                 else choice all_categories) g = inr (c, g')).
      { destruct cur;
          match goal with |- context [filter ?f all_categories] =>
            let l := eval vm_compute in (filter f all_categories) in
            change (filter f all_categories) with l end;
          cbn [is_empty negb]; rewrite choice_cons; eauto. }
      destruct X as (c & g' & X). unfold bind. rewrite X. unfold ret. eauto.
    + apply orb_false_iff in C as [C Z]. apply orb_false_iff in C as [C _].
      assert (NE : av <> []) by (intro B; rewrite B in C; discriminate).
      destruct (choices1_total av ws g NE L P Z) as (c & g' & X).
      unfold bind. rewrite X. unfold ret. eauto.
  - set (cats := filter _ all_categories).
    assert (F : Forall (fun c => has_key (category_weights s) c = true) cats).
    { apply Forall_forall. intros c Hc. now apply filter_In in Hc as [_ Hc]. }
    destruct (configured_weights _ cats g N F) as (ws & E & L & P).
    unfold bind at 1. rewrite E.
    destruct (is_empty cats || is_empty ws || Py.eqb (sum ws) 0) eqn:C.
    + unfold bind, all_categories. rewrite choice_cons. unfold ret. eauto.
    + apply orb_false_iff in C as [C Z]. apply orb_false_iff in C as [C _].
      assert (NE : cats <> []) by (intro B; rewrite B in C; discriminate).
      destruct (choices1_total cats ws g NE L P Z) as (c & g' & X).
      unfold bind. rewrite X. unfold ret.
      exists c, (log s), g'. now destruct s.
Qed.

Lemma category_pool_inhabited (s : TransitionSelector)
  (cat : TransitionCategory) :
  transitions s <> [] -> category_pool s cat <> [].
Proof.
  intro NE. unfold category_pool.
  destruct (filter _ (transitions s)) eqn:E; cbn; [exact NE | discriminate].
Qed.

Lemma select_next_total (s : TransitionSelector) (g : rng) :
  nonnegative (category_weights s) -> transitions s <> [] ->
  exists t s' g', select_next s g = inr ((t, s'), g').
Proof.
  intros N NE. unfold select_next.
  destruct (select_category_total s g N) as (c & lg & g1 & E).
  unfold bind at 1. rewrite E.
  set (s1 := set_log s lg).
  assert (NE1 : category_pool s1 c <> [])
    by (apply category_pool_inhabited; exact NE).
  assert (A : (if is_empty (filtered_pool s1 (category_pool s1 c))
               then category_pool s1 c
               else filtered_pool s1 (category_pool s1 c)) <> []).
  { destruct (filtered_pool s1 (category_pool s1 c)) eqn:F; cbn;
      [exact NE1 | discriminate]. }
  destruct (choice_total _ g1 A) as (t & g2 & Ht).
  unfold bind. cbv zeta. rewrite Ht. unfold ret. eauto.
Qed.

Lemma select_many_total (k : nat) :
  forall (s : TransitionSelector) (g : rng),
    nonnegative (category_weights s) -> transitions s <> [] ->
    exists ts s' g', select_many k s g = inr ((ts, s'), g').
Proof.
  induction k as [|k IH]; intros s g N NE.
  - cbn. unfold ret. eauto.
  - cbn [select_many].
    destruct (select_next_total s g N NE) as (t & s1 & g1 & E).
    pose proof (select_next_spec _ _ _ _ _ E) as (_ & _ & _ & Ew & Et & _).
    destruct (IH s1 g1) as (ts & s2 & g2 & E2).
    + now rewrite Ew.
    + now rewrite Et.
    + unfold bind. rewrite E. cbv zeta. rewrite E2. unfold ret. eauto.
Qed.

Lemma set_weight_nonnegative (w : weight_table) (c : TransitionCategory)
  (v : Q) :
  nonnegative w -> 0 <= v -> nonnegative (set_weight w c v).
Proof.
  intros N V c' v'. unfold set_weight.
  destruct (category_eqb c' c); [intros [= <-]; exact V | apply N].
Qed.

Lemma convert_weights_nonnegative (items : list (string * Q)) :
  Forall (fun kv => 0 <= snd kv) items ->
  forall acc lg, nonnegative acc ->
    nonnegative (fst (fst (convert_weights items acc lg))).
Proof.
  induction 1 as [|[nm v] items Hv _ IH]; intros acc lg N;
    cbn [convert_weights]; [exact N|].
  destruct (category_of_value (lower nm)) as [c|].
  - specialize (IH (set_weight acc c v) lg
                   (set_weight_nonnegative _ _ _ N Hv)).
    destruct (convert_weights items (set_weight acc c v) lg) as [[w a] l].
    exact IH.
  - specialize (IH acc (emit lg WARNING "Unknown transition category") N).
    destruct (convert_weights items acc _) as [[w a] l]. exact IH.
Qed.

Lemma init_nonnegative (weights : list (string * Q)) (lg : logger)
  (simple anniversary : bool) :
  Forall (fun kv => 0 <= snd kv) weights ->
  nonnegative (category_weights (__init__ weights lg simple anniversary)).
Proof.
  intro F. unfold __init__.
  pose proof (convert_weights_nonnegative weights F empty_weights lg
                ltac:(intros c v; discriminate)) as N.
  destruct (convert_weights weights empty_weights lg) as [[w any] lg1].
  destruct any; cbn [category_weights]; [exact N|].
  intros c v. destruct c; cbn; intros [= <-]; unfold Qle; cbn; lia.
Qed.

(** X7.  A selector built from weights none of which is negative never raises:
    any number of selections goes through, whatever the random source
    delivers, also when every weight is zero, when a category is missing
    or when no key is recognised. *)
Theorem selection_never_raises (weights : list (string * Q)) (lg : logger)
  (simple anniversary : bool) (k : nat) (g : rng) :
  Forall (fun kv => 0 <= snd kv) weights ->
  exists ts s' g',
    select_many k (__init__ weights lg simple anniversary) g
    = inr ((ts, s'), g')
    /\ List.length ts = k.
Proof.
  intro F.
  destruct (select_many_total k (__init__ weights lg simple anniversary) g)
    as (ts & s' & g' & E).
  - now apply init_nonnegative.
  - destruct (built_in_init weights lg simple anniversary) as [-> | ->];
      discriminate.
  - exists ts, s', g'. split; [exact E|].
    now apply select_many_spec in E as (_ & _ & L & _).
Qed.

Definition zero_weights : list (string * Q) :=
  [("gentle"%string, 0); ("Dynamic"%string, 0); ("sparkly"%string, 3)].

Lemma selection_never_raises_witness :
  Forall (fun kv => 0 <= snd kv) zero_weights
  /\ exists ts s' g',
       select_many 5 (__init__ zero_weights [] true false) demo_rng
       = inr ((ts, s'), g')
       /\ List.length ts = 5%nat.
Proof.
  assert (F : Forall (fun kv => 0 <= snd kv) zero_weights).
  { repeat constructor; cbn; unfold Qle; cbn; lia. }
  split; [exact F|].
  exact (selection_never_raises zero_weights [] true false 5 demo_rng F).
Defined.

(** ** The weights that [__init__] keeps *)

(** The key names the category, letter case apart. *)
Definition names_category (c : TransitionCategory) (kv : string * Q) : bool :=
  String.eqb (lower (fst kv)) (value c).

Definition recognised (kv : string * Q) : bool :=
  existsb (fun c => names_category c kv) all_categories.

(** The weight of the last item whose key names the category. *)
Definition last_weight (c : TransitionCategory) (items : list (string * Q))
  : option Q :=
  option_map snd (find (names_category c) (rev items)).

Lemma find_snoc {A} (f : A -> bool) (l : list A) (x : A) :
  find f (l ++ [x])
  = match find f l with
    | Some y => Some y
    | None => if f x then Some x else None
    end.
Proof.
  induction l as [|y l IH]; cbn; [reflexivity|].
  destruct (f y); [reflexivity | exact IH].
Qed.

Lemma category_of_value_spec (nm : string) :
  match category_of_value nm with
  | Some c => nm = value c
              /\ forall c', String.eqb nm (value c') = category_eqb c c'
  | None => forall c', String.eqb nm (value c') = false
  end.
Proof.
  unfold category_of_value, all_categories. cbn [find].
  destruct (String.eqb (value GENTLE) nm) eqn:G.
  { apply String.eqb_eq in G as <-. split; [reflexivity|].
    intros []; reflexivity. }
  destruct (String.eqb (value DYNAMIC) nm) eqn:D.
  { apply String.eqb_eq in D as <-. split; [reflexivity|].
    intros []; reflexivity. }
  destruct (String.eqb (value ARTISTIC) nm) eqn:A.
  { apply String.eqb_eq in A as <-. split; [reflexivity|].
    intros []; reflexivity. }
  intros []; rewrite String.eqb_sym; assumption.
Qed.

Lemma convert_weights_spec (items : list (string * Q)) :
  forall (acc : weight_table) (lg : logger),
    let r := convert_weights items acc lg in
    (forall c, fst (fst r) c
               = match last_weight c items with
                 | Some v => Some v
                 | None => acc c
                 end)
    /\ snd (fst r) = existsb recognised items.
Proof.
  induction items as [|[nm v] items IH]; intros acc lg; cbv zeta.
  - split; reflexivity.
  - cbn [convert_weights existsb].
    pose proof (category_of_value_spec (lower nm)) as S.
    assert (R : forall c, last_weight c ((nm, v) :: items)
                = match last_weight c items with
                  | Some w => Some w
                  | None => if String.eqb (lower nm) (value c)
                            then Some v else None
                  end).
    { intro c. unfold last_weight. cbn [rev]. rewrite find_snoc.
      destruct (find (names_category c) (rev items)); [reflexivity|].
      unfold names_category. cbn [fst].
      destruct (String.eqb (lower nm) (value c)); reflexivity. }
    destruct (category_of_value (lower nm)) as [c0|].
    + destruct S as [_ S].
      destruct (IH (set_weight acc c0 v) lg) as [IH1 IH2].
      destruct (convert_weights items (set_weight acc c0 v) lg)
        as [[w a] l]. cbn [fst snd] in *. split.
      * intro c. rewrite IH1, R, S.
        destruct (last_weight c items); [reflexivity|].
        unfold set_weight, category_eqb.
        destruct (category_eq_dec c c0) as [E|NE];
          destruct (category_eq_dec c0 c) as [E'|NE'];
          try reflexivity; congruence.
      * unfold recognised at 1, names_category, all_categories.
        cbn [existsb fst]. rewrite !S.
        destruct c0; reflexivity.
    + destruct (IH acc (emit lg WARNING "Unknown transition category"))
        as [IH1 IH2].
      destruct (convert_weights items acc _) as [[w a] l].
      cbn [fst snd] in *. split.
      * intro c. rewrite IH1, R, S.
        destruct (last_weight c items); reflexivity.
      * unfold recognised at 1, names_category, all_categories.
        cbn [existsb fst]. rewrite !S. exact IH2.
Qed.

(** X8.  The weight table that [__init__] builds: keys are matched to the
    category values letter case apart; of several keys for one category
    the last one counts; a category that no key names has no weight at
    all, unless no key is recognised, in which case the three defaults
    0.7, 0.2 and 0.1 are used. *)
Theorem init_weights_lookup (weights : list (string * Q)) (lg : logger)
  (simple anniversary : bool) (c : TransitionCategory) :
  category_weights (__init__ weights lg simple anniversary) c
  = if existsb recognised weights then last_weight c weights
    else default_weights c.
Proof.
  unfold __init__.
  destruct (convert_weights_spec weights empty_weights lg) as [W A].
  destruct (convert_weights weights empty_weights lg) as [[w any] lg1].
  cbn [fst snd] in W, A. rewrite <- A.
  destruct any; cbn [category_weights]; [|reflexivity].
  rewrite W. destruct (last_weight c weights); reflexivity.
Qed.

End TransitionMore.

(* ================================================================== *)
(** * Segment rendering: verdict and verification log *)
(* ================================================================== *)

Module SegmentSpec.

Import Segment.



(** The frame number last parsed from the engine's progress lines. *)
Definition parsed_frames (run : engine_run) : Z :=
  match run with
  | Raised _ => 0%Z
  | Exited lines _ => fst (read_progress lines 0 [])
  end.



Lemma logged_at_emit (lv lv' : level) (msg' : string) (lg : logger) :
  logged_at lv (emit lg lv' msg') = logged_at lv lg || level_eqb lv' lv.
Proof.
  unfold logged_at, emit. rewrite existsb_app. cbn. now rewrite orb_false_r.
Qed.

Section Verdict.

Variable self : SegmentRenderer.
Variable lg : logger.
Variable duration : Q.
Variable overlay_path : option string.
Variable run : engine_run.
Variable after : probe.

Let r := render_segment self lg duration overlay_path run after.
Let frame_diff :=
  Z.abs (parsed_frames run - Py.int (duration * inject_Z (fps self))).
Let duration_diff := Qabs (actual_duration after - duration).



End Verdict.






End SegmentSpec.

(* ================================================================== *)
(** * Generation: what follows an infeasible schedule *)
(* ================================================================== *)

Module SlideshowSpec.

Import Timing TimingSpec Slideshow.







End SlideshowSpec.

(* ================================================================== *)
(** * Slideshow generation: schedule, windows and overlay cache *)
(* ================================================================== *)

Module SlideshowMore.

Import Timing TimingSpec TimingMore Slideshow.

(** ** Which segments a run renders *)
















(** Fewer than two valid images: nothing is rendered, and the run fails
    with an error in the log. *)
Lemma generate_needs_two_images (w : world) (lg : logger) :
  (valid_images w < 2)%nat ->
  calls (generate w lg) = [] /\ success (generate w lg) = false.
Proof.
  intro V. unfold generate.
  replace (valid_images w <? 2)%nat with true
    by (symmetry; apply Nat.ltb_lt; exact V).
  split; reflexivity.
Qed.

(** ** Where a segment shows particles *)

Definition window_length (w : Q * Q) : Q := snd w - fst w.



End SlideshowMore.

(* ================================================================== *)
(** * Particle simulation: pool, frames and windows *)
(* ================================================================== *)

Module ParticleSpec.

Import Random Particles RandomFacts.

Section Pool.

Variable sin : Q -> Q.
Variable _render_frame : ParticleOverlayGenerator -> list Particle -> list Byte.byte.
Variable self : ParticleOverlayGenerator.

(** ** Random draws inside a computation *)

Lemma bind_uniform {B} (a b : Q) (k : Q -> M B) (g : rng) :
  exists u g', (0 <= u /\ u < 1) /\ bind (uniform a b) k g = k (a + (b - a) * u) g'.
Proof.
  destruct (uniform_total a b g) as (u & g' & E & H).
  exists u, g'. split; [exact H|]. unfold bind. now rewrite E.
Qed.

Lemma bind_choice {A B} (l : list A) (k : A -> M B) (g : rng) :
  l <> [] -> exists a g', In a l /\ bind (choice l) k g = k a g'.
Proof.
  intro N. destruct (choice_total l g N) as (a & g' & E).
  exists a, g'. split; [now apply choice_In in E|]. unfold bind. now rewrite E.
Qed.

Ltac draw :=
  repeat match goal with
  | |- context [bind (uniform ?a ?b) ?k ?g] =>
      let u := fresh "u" in let g' := fresh "g" in let H := fresh "Hu" in
      destruct (bind_uniform a b k g) as (u & g' & H & ->); cbv beta
  | |- context [bind (ret ?a) ?k ?g] =>
      change (bind (ret a) k g) with (k a g); cbv beta
  end.

(** ** Spawning *)


Lemma scaled_life_positive (t lo hi u : Q) :
  1 <= t -> 0 < lo -> lo <= hi -> 0 <= u -> u < 1 ->
  0 < t * lo + (t * hi - t * lo) * u.
Proof.
  intros Ht Hlo Hhi Hu0 Hu1.
  assert (P : 0 <= (t * (hi - lo)) * u).
  { apply Qmult_le_0_compat; [|assumption].
    apply Qmult_le_0_compat; lra. }
  assert (Q0 : 0 < t * lo) by (apply Qmult_lt_0_compat; lra).
  setoid_replace (t * lo + (t * hi - t * lo) * u)
    with (t * lo + t * (hi - lo) * u) by ring.
  lra.
Qed.


Lemma inject_Z_ge_1 (z : Z) : (1 <= z)%Z -> 1 <= inject_Z z.
Proof. intro H. unfold Qle. cbn. lia. Qed.


Hypothesis colors_present : colors self <> [].
Hypothesis fps_nonzero : fps self <> 0%Z.


(** ** Updating *)





(** ** The frame loop never raises on a sound generator *)

Variable enc : encoder.
Variable ranges : option (list (Z * Z)).
Variable total_frames : Z.
Variable transparent_bytes : list Byte.byte.

Hypothesis accepts_all : forall k, accepts enc k = true.
Hypothesis frames_positive : (1 <= total_frames)%Z.


Lemma find_window_found (rs : list (Z * Z)) (f : Z) :
  forall idx w start len,
    find_window rs idx f = Some (w, start, len) ->
    (idx <= w)%Z /\ (1 <= len)%Z /\ In (start, (start + len)%Z) rs
    /\ (start <= f < start + len)%Z.
Proof.
  induction rs as [|[s e] rs IH]; intros idx w start len H; [discriminate|].
  cbn [find_window] in H.
  destruct ((s <=? f) && (f <? e))%Z eqn:C.
  - injection H as <- <- <-. apply andb_true_iff in C as [C1 C2].
    apply Z.leb_le in C1. apply Z.ltb_lt in C2.
    replace (s + (e - s))%Z with e by lia.
    repeat split; try lia. now left.
  - apply IH in H as (H1 & H2 & H3 & H4).
    repeat split; try lia. now right.
Qed.






End Pool.

Section Run.

Variable sin : Q -> Q.
Variable _render_frame : ParticleOverlayGenerator -> list Particle -> list Byte.byte.
Variable self : ParticleOverlayGenerator.
Variable enc : encoder.

(** ** Pool size *)








Lemma and_then_inr {A B} (r : exn + A) (k : A -> exn + B) (b : B) :
  and_then r k = inr b -> exists a, r = inr a /\ k a = inr b.
Proof. destruct r as [e|a]; [discriminate|]. cbn. eauto. Qed.






(** ** Inactive frames *)







(** ** Order of the frames in the pipe *)



End Run.




(** ** The whole call *)





(** Every generator that the code builds has a palette. *)
Lemma constructed_palette (cfg : overlay_config) (resolution : Z * Z)
  (fps_ : Z) (lg : logger) :
  colors (__init__ cfg resolution fps_ lg) <> [].
Proof.
  unfold __init__. cbn [colors].
  destruct (type_eqb _ RANDOM); [discriminate|].
  destruct (type_of_value _); discriminate.
Qed.

Lemma randomized_palette (self self' : ParticleOverlayGenerator)
  (ty : ParticleType) (g g' : rng) :
  randomize_type self g = inr ((ty, self'), g') ->
  colors self' <> [] /\ particle_type self' = ty /\ In ty CONCRETE_TYPES
  /\ particle_count self' = particle_count self.
Proof.
  unfold randomize_type. intro H.
  apply bind_inr in H as (t & g1 & Hc & H). apply choice_In in Hc.
  destruct (DEFAULT_COLORS t) as [palette|] eqn:D; [|discriminate].
  apply ret_inr in H as [H _]. injection H as <- <-. cbn.
  repeat split; try assumption.
  destruct t; try discriminate D; injection D as <-; discriminate.
Qed.

(** ** Concrete generators *)

Definition small_config (ty : string) : overlay_config :=
  {| cfg_enabled := Some true; cfg_type := Some ty; cfg_density := None;
     cfg_application_rate := None; cfg_apply_to_opening := None;
     cfg_apply_to_closing := None; cfg_size := None |}.

(** Thirty frames a second on a 16 by 9 raster. *)
Definition small_hearts : ParticleOverlayGenerator :=
  __init__ (small_config "hearts") (16, 9)%Z 30 [].
Definition small_sparkles : ParticleOverlayGenerator :=
  __init__ (small_config "sparkles") (16, 9)%Z 30 [].

Definition ideal_encoder : encoder :=
  {| launches := true; accepts := fun _ => true; exit_status := Some 0%Z |}.

Definition flat_sin (x : Q) : Q := 0.
Definition blank_raster (s : ParticleOverlayGenerator) (ps : list Particle)
  : list Byte.byte := [].

Definition some_rng : rng :=
  {| tape := fun k => (N.of_nat k * 3000000000000000 + 17)%N; pos := 0 |}.

Example small_hearts_count : particle_count small_hearts = 32%Z.
Proof. reflexivity. Qed.

(** The scenario of the specification: five seconds at 30 frames a second
    with windows (0, 1) and (4, 5). *)
Example scenario_ranges :
  frame_ranges small_hearts [(0, 1); (4, 5)] 150 = [(0, 30); (120, 150)]%Z.
Proof. reflexivity. Qed.

Example scenario_run :
  let r := generate_overlay_video flat_sin blank_raster small_sparkles true
             ideal_encoder 5 (Some [(0, 1 # 10); (49 # 10, 5)]) some_rng in
  returned r = true
  /\ List.length (written r) = 150%nat
  /\ option_map (@List.length Particle) (pool r) = Some 32%nat
  /\ map fst (work_done r) = [0; 0; 0; 1; 1; 2; 2; 147; 147; 147; 148; 148;
                              149; 149]%Z.
Proof. vm_compute. repeat split. Qed.

Definition renders (w : Z * work) : bool :=
  match snd w with RenderFrame => true | _ => false end.

(** In the scenario of the specification, frames 0 to 29 and 120 to 149,
    and no others, are rendered from particles. *)
Example scenario_active_frames :
  let r := generate_overlay_video flat_sin blank_raster small_sparkles true
             ideal_encoder 5 (Some [(0, 1); (4, 5)]) some_rng in
  map fst (filter renders (work_done r)) = range 30 ++ map (Z.add 120) (range 30).
Proof. vm_compute. reflexivity. Qed.








End ParticleSpec.

(* ================================================================== *)
(** * Particle overlays: construction, verdict and opacity *)
(* ================================================================== *)

Module ParticleMore.

Import Random Particles RandomFacts ParticleSpec.

(** ** The generator that [__init__] builds *)

Lemma clamp01_bounds (v : Q) : 0 <= clamp01 v /\ clamp01 v <= 1.
Proof.
  unfold clamp01, Py.max, Py.min.
  destruct (Py.ltb v 1) eqn:A.
  - apply PyFacts.ltb_true in A.
    destruct (Py.ltb 0 v) eqn:B.
    + apply PyFacts.ltb_true in B. lra.
    + lra.
  - destruct (Py.ltb 0 1) eqn:B; lra.
Qed.

Lemma clamp01_low (v : Q) : v <= 0 -> clamp01 v = 0.
Proof.
  intro H. unfold clamp01, Py.max, Py.min.
  replace (Py.ltb v 1) with true
    by (symmetry; apply PyFacts.ltb_true; lra).
  replace (Py.ltb 0 v) with false
    by (symmetry; apply PyFacts.ltb_false; exact H).
  reflexivity.
Qed.

Lemma clamp01_high (v : Q) : 1 <= v -> clamp01 v = 1.
Proof.
  intro H. unfold clamp01, Py.max, Py.min.
  replace (Py.ltb v 1) with false
    by (symmetry; apply PyFacts.ltb_false; exact H).
  reflexivity.
Qed.

Lemma int_between (x : Q) (a b : Z) :
  (0 <= a)%Z -> inject_Z a <= x -> x <= inject_Z b ->
  (a <= Py.int x <= b)%Z.
Proof.
  intros A L U. unfold Py.int. destruct x as [n d].
  unfold Qle in L, U. cbn in *. rewrite Z.mul_1_r in *.
  assert (N : (0 <= n)%Z) by nia.
  rewrite Z.quot_div_nonneg by lia. split.
  - apply Z.div_le_lower_bound; lia.
  - apply Z.div_le_upper_bound; lia.
Qed.

Lemma size_map_values (s : string) (v : Q) :
  size_map s = Some v -> In v [1 # 4; 1 # 2; 1; 3 # 2; 2].
Proof.
  unfold size_map.
  repeat match goal with
         | |- (if ?c then _ else _) = _ -> _ => destruct c
         end; intros [= <-]; cbn; tauto.
Qed.

(** X15.  Whatever the configuration holds, the generator that [__init__]
    builds has a density and an application rate between 0 and 1, between
    15 and 50 particles, one of the five size multipliers, a concrete
    palette that is not empty (the hearts palette in random mode), and
    the type hearts when the configured type is not one of the five
    known values. *)
Theorem constructed_generator_bounds (cfg : overlay_config)
  (resolution : Z * Z) (fps_ : Z) (lg : logger) :
  let self := __init__ cfg resolution fps_ lg in
  (0 <= density self /\ density self <= 1)
  /\ (0 <= application_rate self /\ application_rate self <= 1)
  /\ (15 <= particle_count self <= 50)%Z
  /\ In (size_multiplier self) [1 # 4; 1 # 2; 1; 3 # 2; 2]
  /\ colors self <> []
  /\ (colors self
      = match particle_type self with
        | RANDOM => HEARTS_COLORS
        | ty => get (DEFAULT_COLORS ty) HEARTS_COLORS
        end)
  /\ (is_random_mode self = true <-> particle_type self = RANDOM)
  /\ (~ In (get (cfg_type cfg) "hearts"%string) (map type_value all_types) ->
      particle_type self = HEARTS).
Proof.
  cbv zeta. unfold __init__.
  cbn [density application_rate particle_count size_multiplier colors
       particle_type is_random_mode].
  set (ty := type_of_value (get (cfg_type cfg) "hearts"%string)).
  pose proof (clamp01_bounds (get (cfg_density cfg) (1 # 2))) as D.
  split; [exact D|].
  split; [apply clamp01_bounds|].
  split.
  { set (d := clamp01 _) in *.
    apply int_between;
      [lia | change (inject_Z 15) with 15; lra
      | change (inject_Z 50) with 50; lra]. }
  split.
  { destruct (size_map _) as [v|] eqn:E; cbn [get].
    - exact (size_map_values _ _ E).
    - cbn. tauto. }
  split.
  { destruct ty; cbn; discriminate. }
  split.
  { destruct ty; reflexivity. }
  split.
  { destruct ty; cbn; split; congruence. }
  intro N. unfold ty, type_of_value.
  destruct (find _ all_types) as [t|] eqn:F; [|reflexivity].
  apply find_some in F as [I E]. apply String.eqb_eq in E.
  exfalso. apply N. rewrite <- E. now apply in_map.
Qed.

(** ** Deciding whether a transition gets particles *)

(** X16.  [should_apply] never raises.  A generator that is disabled, or a
    missing Pillow, gives [False] without consuming a random number; a
    configured application rate of zero or less gives [False] for every
    draw, and a rate of one or more gives [True] for every draw of an
    enabled generator. *)
Theorem should_apply_edges (cfg : overlay_config) (resolution : Z * Z)
  (fps_ : Z) (lg : logger) (PIL_AVAILABLE : bool) (g : rng) :
  let self := __init__ cfg resolution fps_ lg in
  let rate := get (cfg_application_rate cfg) (3 # 10) in
  exists b g',
    should_apply PIL_AVAILABLE self g = inr (b, g')
    /\ (cfg_enabled cfg <> Some true \/ PIL_AVAILABLE = false ->
        b = false /\ g' = g)
    /\ (rate <= 0 -> b = false)
    /\ (1 <= rate -> cfg_enabled cfg = Some true -> PIL_AVAILABLE = true ->
        b = true).
Proof.
  cbv zeta. unfold should_apply.
  assert (E : enabled (__init__ cfg resolution fps_ lg)
              = get (cfg_enabled cfg) false) by reflexivity.
  assert (R : application_rate (__init__ cfg resolution fps_ lg)
              = clamp01 (get (cfg_application_rate cfg) (3 # 10)))
    by reflexivity.
  rewrite E, R.
  destruct (negb (get (cfg_enabled cfg) false) || negb PIL_AVAILABLE) eqn:C.
  - exists false, g. split; [reflexivity|]. split; [auto|]. split; [auto|].
    intros _ En P. rewrite En, P in C. discriminate C.
  - apply orb_false_iff in C as [C1 C2].
    apply negb_false_iff in C1, C2.
    destruct (random_total g) as (u & g' & Eu & U0 & U1).
    unfold bind. rewrite Eu. unfold ret.
    eexists. exists g'. split; [reflexivity|]. split.
    + intros [N | P]; [|congruence].
      destruct (cfg_enabled cfg) as [[|]|]; cbn in C1; congruence.
    + split; intro H.
      * rewrite (clamp01_low _ H). apply PyFacts.ltb_false. exact U0.
      * intros _ _. rewrite (clamp01_high _ H).
        apply PyFacts.ltb_true. exact U1.
Qed.

(** X17.  [randomize_type] never raises: it always picks one of the four
    concrete types, never [RANDOM], installs the palette of that type,
    and leaves the particle count, the density, the size multiplier, the
    raster and the random-mode flag as they were. *)
Theorem randomize_type_concrete (self : ParticleOverlayGenerator) (g : rng) :
  exists ty self' g',
    randomize_type self g = inr ((ty, self'), g')
    /\ In ty CONCRETE_TYPES /\ ty <> RANDOM
    /\ particle_type self' = ty
    /\ DEFAULT_COLORS ty = Some (colors self')
    /\ colors self' <> []
    /\ particle_count self' = particle_count self
    /\ density self' = density self
    /\ size_multiplier self' = size_multiplier self
    /\ (width self', height self', fps self')
       = (width self, height self, fps self)
    /\ is_random_mode self' = is_random_mode self
    /\ enabled self' = enabled self
    /\ application_rate self' = application_rate self.
Proof.
  unfold randomize_type.
  destruct (choice_total CONCRETE_TYPES g ltac:(discriminate))
    as (ty & g' & E).
  pose proof (choice_In _ _ _ _ E) as I.
  unfold bind. rewrite E.
  assert (N : ty <> RANDOM).
  { intros ->. cbn in I. intuition discriminate. }
  destruct ty; try congruence; cbn [DEFAULT_COLORS]; unfold ret;
    do 3 eexists; (split; [reflexivity|]); cbn;
    repeat split; auto; discriminate.
Qed.

(** ** The verdict of [generate_overlay_video] *)

Section Verdict.

Variable sin : Q -> Q.
Variable _render_frame : ParticleOverlayGenerator -> list Particle -> list Byte.byte.
Variable self : ParticleOverlayGenerator.
Variable enc : encoder.




End Verdict.

Definition last_level (lg : logger) : option level :=
  option_map fst (last (map Some lg) None).

Lemma last_level_emit (lg : logger) (lv : level) (msg : string) :
  last_level (emit lg lv msg) = Some lv.
Proof.
  unfold last_level, emit. rewrite map_app. cbn [map].
  rewrite last_last. reflexivity.
Qed.






(** ** Opacity *)

(** A particle that the renderer can draw: it has life left, no more
    than it started with, and an opacity between nothing and its own
    ceiling, which is at most 0.95. *)
Definition visible (p : Particle) : Prop :=
  0 < life p /\ life p <= max_life p
  /\ 0 <= alpha p /\ alpha p <= base_alpha p /\ base_alpha p <= 95 # 100.

Lemma scale_within (b r : Q) :
  0 <= b -> 0 <= r -> r <= 1 -> 0 <= b * r /\ b * r <= b.
Proof. intros B R0 R1. split; nra. Qed.

Lemma ratio_within (x c : Q) :
  0 < c -> 0 <= x -> x <= c -> 0 <= x / c /\ x / c <= 1.
Proof.
  intros C X0 X1. split.
  - apply Qle_shift_div_l; [exact C | lra].
  - apply Qle_shift_div_r; [exact C | lra].
Qed.

Section Opacity.

Variable sin : Q -> Q.
Variable self : ParticleOverlayGenerator.

Hypothesis sin_bounded : forall x, -1 <= sin x /\ sin x <= 1.
Hypothesis colors_present : colors self <> [].
Hypothesis fps_positive : (1 <= fps self)%Z.

Ltac draw :=
  repeat match goal with
  | |- context [bind (uniform ?a ?b) ?k ?g] =>
      let u := fresh "u" in let g' := fresh "g" in let H := fresh "Hu" in
      destruct (bind_uniform a b k g) as (u & g' & H & ->); cbv beta
  | |- context [bind (ret ?a) ?k ?g] =>
      change (bind (ret a) k g) with (k a g); cbv beta
  end.

Lemma spawn_particle_visible (total_frames : Z) (initial : bool) (g : rng) :
  (1 <= total_frames)%Z ->
  exists p g', _spawn_particle self total_frames initial g = inr (p, g')
               /\ visible p.
Proof using colors_present fps_positive.
  clear sin sin_bounded.
  intro T. apply inject_Z_ge_1 in T.
  pose proof (inject_Z_ge_1 _ fps_positive) as F.
  unfold _spawn_particle.
  destruct (bind_choice (colors self)
              (fun c => bind (uniform 0 (2 * pi)) (fun ph =>
                 match particle_type self with
                 | HEARTS => spawn_hearts self total_frames initial c ph
                 | SPARKLES => spawn_sparkles self total_frames initial c ph
                 | PETALS => spawn_petals self total_frames initial c ph
                 | _ => spawn_confetti self total_frames initial c ph
                 end)) g colors_present) as (c & g0 & _ & ->).
  cbv beta. draw.
  unfold visible.
  destruct (particle_type self);
    unfold spawn_hearts, spawn_sparkles, spawn_petals, spawn_confetti;
    destruct initial; draw;
    (do 2 eexists; split; [reflexivity|];
     cbn [life max_life alpha base_alpha]);
    (split; [apply scaled_life_positive; lra || tauto|]);
    (split; [apply Qle_refl|]); lra.
Qed.

Lemma envelope_visible (p : Particle) (edge hold : Q) :
  0 < max_life p -> life p <= max_life p -> 0 <= base_alpha p ->
  0 < edge -> 0 <= hold -> hold <= base_alpha p ->
  exists a, (forall g, envelope p edge hold g = inr (a, g))
            /\ (0 < life p -> 0 <= a /\ a <= base_alpha p).
Proof using Type.
  intros M L B E H0 H1. unfold envelope, lift_div.
  rewrite (PyFacts.div_defined (life p) (max_life p)) by lra.
  change (bind (ret ?a) ?k) with (k a). cbv beta.
  set (r := life p / max_life p).
  assert (R1 : r <= 1).
  { unfold r. apply Qle_shift_div_r; [exact M | lra]. }
  destruct (Py.ltb (1 - r) edge) eqn:C1.
  - eexists. split; [reflexivity|]. intros _.
    apply PyFacts.ltb_true in C1.
    apply scale_within; [exact B|apply ratio_within..]; lra.
  - destruct (Py.gtb (1 - r) (1 - edge)) eqn:C2.
    + eexists. split; [reflexivity|]. intro P.
      apply PyFacts.gtb_true in C2.
      assert (R0 : 0 <= r).
      { unfold r. apply Qle_shift_div_l; [exact M | lra]. }
      apply scale_within; [exact B|apply ratio_within..]; lra.
    + eexists. split; [reflexivity|]. intros _. split; assumption.
Qed.

Lemma update_slot_visible (total_frames : Z) (p : Particle) (g : rng) :
  (1 <= total_frames)%Z -> visible p ->
  exists p' g', update_slot sin self total_frames p g = inr (p', g')
                /\ visible p'.
Proof using sin_bounded colors_present fps_positive.
  intros T (L0 & L1 & A0 & A1 & B).
  assert (M : 0 < max_life p) by lra.
  assert (B0 : 0 <= base_alpha p) by lra.
  unfold update_slot.
  destruct (particle_type self).
  - (* hearts *)
    match goal with
    | |- context [bind (envelope ?q ?e ?h) ?k g] =>
        destruct (envelope_visible q e h) as (a & Ea & Ha);
          cbn [life max_life base_alpha alpha set_life set_phase set_rotation
               set_x set_y set_alpha set_size set_speed_x];
          try lra;
          unfold bind at 1; rewrite Ea
    end.
    cbn [life max_life base_alpha alpha set_life set_phase set_rotation
         set_x set_y set_alpha set_size set_speed_x y size speed_y] in *.
    match goal with
    | |- context [if ?c then _spawn_particle _ _ _ else _] =>
        destruct c eqn:C
    end.
    + apply spawn_particle_visible; exact T.
    + apply orb_false_iff in C as [C _]. apply PyFacts.leb_false in C.
      do 2 eexists. split; [reflexivity|]. unfold visible.
      cbn [life max_life base_alpha alpha set_life set_phase set_rotation
           set_x set_y set_alpha set_size set_speed_x].
      specialize (Ha C). lra.
  - (* sparkles *)
    match goal with
    | |- context [bind (envelope ?q ?e ?h) ?k g] =>
        destruct (envelope_visible q e h) as (a & Ea & Ha);
          cbn [life max_life base_alpha alpha set_life set_phase set_rotation
               set_x set_y set_alpha set_size set_speed_x phase];
          try lra;
          [ destruct (sin_bounded ((phase p + (8 # 100)) * 3)); nra
          | destruct (sin_bounded ((phase p + (8 # 100)) * 3)); nra
          | unfold bind at 1; rewrite Ea ]
    end.
    cbn [life max_life base_alpha alpha set_life set_phase set_rotation
         set_x set_y set_alpha set_size set_speed_x y size speed_y] in *.
    match goal with
    | |- context [if ?c then _spawn_particle _ _ _ else _] =>
        destruct c eqn:C
    end.
    + apply spawn_particle_visible; exact T.
    + apply PyFacts.leb_false in C.
      do 2 eexists. split; [reflexivity|]. unfold visible.
      cbn [life max_life base_alpha alpha set_life set_phase set_rotation
           set_x set_y set_alpha set_size set_speed_x].
      specialize (Ha C). lra.
  - (* petals *)
    match goal with
    | |- context [bind (envelope ?q ?e ?h) ?k g] =>
        destruct (envelope_visible q e h) as (a & Ea & Ha);
          cbn [life max_life base_alpha alpha set_life set_phase set_rotation
               set_x set_y set_alpha set_size set_speed_x];
          try lra;
          unfold bind at 1; rewrite Ea
    end.
    cbn [life max_life base_alpha alpha set_life set_phase set_rotation
         set_x set_y set_alpha set_size set_speed_x y size speed_y] in *.
    match goal with
    | |- context [if ?c then _spawn_particle _ _ _ else _] =>
        destruct c eqn:C
    end.
    + apply spawn_particle_visible; exact T.
    + apply orb_false_iff in C as [C _]. apply PyFacts.leb_false in C.
      do 2 eexists. split; [reflexivity|]. unfold visible.
      cbn [life max_life base_alpha alpha set_life set_phase set_rotation
           set_x set_y set_alpha set_size set_speed_x].
      specialize (Ha C). lra.
  - (* confetti *)
    cbn [life max_life base_alpha alpha set_life set_phase set_rotation
         set_x set_y set_alpha set_size set_speed_x y size speed_y].
    destruct (Py.gtb _ (inject_Z (height self) * (85 # 100)));
      cbn [life max_life base_alpha alpha set_life set_phase set_rotation
           set_x set_y set_alpha set_size set_speed_x y size speed_y];
      match goal with
      | |- context [if ?c then _spawn_particle _ _ _ else _] =>
          destruct c eqn:C
      end;
      try (apply spawn_particle_visible; exact T);
      apply orb_false_iff in C as [C _]; apply PyFacts.leb_false in C;
      (do 2 eexists; split; [reflexivity|]); unfold visible;
      cbn [life max_life base_alpha alpha set_life set_phase set_rotation
           set_x set_y set_alpha set_size set_speed_x];
      lra.
  - (* a generator still of type random takes the confetti branch *)
    cbn [life max_life base_alpha alpha set_life set_phase set_rotation
         set_x set_y set_alpha set_size set_speed_x y size speed_y].
    destruct (Py.gtb _ (inject_Z (height self) * (85 # 100)));
      cbn [life max_life base_alpha alpha set_life set_phase set_rotation
           set_x set_y set_alpha set_size set_speed_x y size speed_y];
      match goal with
      | |- context [if ?c then _spawn_particle _ _ _ else _] =>
          destruct c eqn:C
      end;
      try (apply spawn_particle_visible; exact T);
      apply orb_false_iff in C as [C _]; apply PyFacts.leb_false in C;
      (do 2 eexists; split; [reflexivity|]); unfold visible;
      cbn [life max_life base_alpha alpha set_life set_phase set_rotation
           set_x set_y set_alpha set_size set_speed_x];
      lra.
Qed.

Lemma update_particles_visible (ps : list Particle) (frame_num total_frames : Z) :
  (1 <= total_frames)%Z -> Forall visible ps ->
  forall g, exists ps' g',
    _update_particles sin self ps frame_num total_frames g = inr (ps', g')
    /\ Forall visible ps'.
Proof using sin_bounded colors_present fps_positive.
  intros T. induction 1 as [|p ps A _ IH]; intro g; cbn [_update_particles].
  - exists [], g. split; [reflexivity|constructor].
  - destruct (update_slot_visible total_frames p g T A) as (p' & g1 & E1 & A1).
    destruct (IH g1) as (ps' & g2 & E2 & A2).
    exists (p' :: ps'), g2. unfold bind. rewrite E1, E2.
    split; [reflexivity | now constructor].
Qed.

Lemma spawn_initial_visible (count : nat) (total_frames : Z) :
  (1 <= total_frames)%Z ->
  forall g, exists ps g',
    spawn_initial self count total_frames g = inr (ps, g')
    /\ Forall visible ps.
Proof using colors_present fps_positive.
  clear sin sin_bounded.
  intro T. induction count as [|count IH]; intro g; cbn [spawn_initial].
  - exists [], g. split; [reflexivity|constructor].
  - destruct (spawn_particle_visible total_frames true g T) as (p & g1 & E1 & A1).
    destruct (IH g1) as (ps & g2 & E2 & A2).
    exists (p :: ps), g2. unfold bind. rewrite E1, E2.
    split; [reflexivity | now constructor].
Qed.

Variable _render_frame : ParticleOverlayGenerator -> list Particle -> list Byte.byte.
Variable enc : encoder.

Definition pool_visible (o : option (list Particle)) : Prop :=
  forall ps, o = Some ps -> Forall visible ps.

Lemma frame_step_visible (ranges : option (list (Z * Z))) (total_frames : Z)
  (tb : list Byte.byte) (st st' : sim_state) (f : Z) :
  (1 <= total_frames)%Z ->
  pool_visible (particles st) ->
  frame_step sin _render_frame self enc ranges total_frames tb st f = inr st' ->
  pool_visible (particles st').
Proof using sin_bounded colors_present fps_positive.
  intros T S H.
  assert (I : forall s s' len, (1 <= len)%Z ->
                do_init self s f len = inr s' -> pool_visible (particles s')).
  { intros s s' len L. unfold do_init, _init_particles.
    destruct (spawn_initial_visible (Z.to_nat (particle_count self)) len L
                (gen s)) as (ps & g' & -> & V).
    intros [= <-] ps' [= <-]. exact V. }
  assert (U : forall s s' lf len, (1 <= len)%Z ->
                pool_visible (particles s) ->
                do_update sin self s f lf len = inr s' ->
                pool_visible (particles s')).
  { intros s s' lf len L V. unfold do_update.
    destruct (particles s) as [ps|]; [|discriminate].
    destruct (update_particles_visible ps lf len L (V ps eq_refl) (gen s))
      as (ps' & g' & -> & V').
    intros [= <-] ps2 [= <-]. exact V'. }
  assert (R : forall s s', pool_visible (particles s) ->
                do_render _render_frame self enc s f = inr s' ->
                pool_visible (particles s')).
  { intros s s' V. unfold do_render, write.
    destruct (particles s) as [ps|] eqn:P; [|discriminate]. cbn.
    destruct (accepts enc _); [|discriminate].
    intros [= <-]. cbn. now rewrite P. }
  unfold frame_step in H.
  destruct ranges as [rs|].
  - destruct (find_window rs 0 f) as [[[w start] len]|] eqn:W.
    + apply find_window_found in W as (_ & W2 & _).
      apply and_then_inr in H as (st1 & H1 & H).
      apply and_then_inr in H as (st2 & H2 & H).
      assert (S1 : pool_visible (particles st1)).
      { destruct (negb _).
        - apply and_then_inr in H1 as (st0 & H0 & [= <-]).
          exact (I _ _ _ W2 H0).
        - now injection H1 as <-. }
      exact (R _ _ (U _ _ _ _ W2 S1 H2) H).
    + unfold write in H. destruct (accepts enc _); [|discriminate].
      now injection H as <-.
  - apply and_then_inr in H as (st1 & H1 & H).
    apply and_then_inr in H as (st2 & H2 & H).
    assert (S1 : pool_visible (particles st1)).
    { destruct (particles st) eqn:P.
      - injection H1 as <-. now rewrite P.
      - exact (I _ _ _ T H1). }
    exact (R _ _ (U _ _ _ _ T S1 H2) H).
Qed.

Lemma frame_loop_visible (ranges : option (list (Z * Z))) (total_frames : Z)
  (tb : list Byte.byte) (frame_nums : list Z) :
  (1 <= total_frames)%Z ->
  forall st, pool_visible (particles st) ->
    pool_visible (particles (snd (frame_loop sin _render_frame self enc ranges
                                    total_frames tb frame_nums st))).
Proof using sin_bounded colors_present fps_positive.
  intro T.
  induction frame_nums as [|f fs IH]; intros st S; cbn [frame_loop];
    [exact S|].
  destruct (frame_step _ _ _ _ _ _ _ _ _) as [e|st1] eqn:E; [exact S|].
  apply IH. exact (frame_step_visible _ _ _ _ _ _ T S E).
Qed.

End Opacity.

(** X20.  With a sine between -1 and 1, a palette and a positive frame rate,
    every particle handed to the renderer is drawable: [_init_particles]
    returns particles with life left and an opacity between 0 and their
    ceiling, itself at most 0.95; [_update_particles] returns and keeps
    this true of every slot, for every particle type; so it holds of the
    pool at the end of every call of [generate_overlay_video]. *)
Theorem opacity_stays_in_range (sin : Q -> Q)
  (_render_frame : ParticleOverlayGenerator -> list Particle -> list Byte.byte)
  (self : ParticleOverlayGenerator) (enc : encoder) :
  (forall x, -1 <= sin x /\ sin x <= 1) ->
  colors self <> [] -> (1 <= fps self)%Z ->
  (forall total_frames g, (1 <= total_frames)%Z ->
     exists ps g', _init_particles self total_frames g = inr (ps, g')
                   /\ Forall visible ps)
  /\ (forall ps frame_num total_frames g,
        (1 <= total_frames)%Z -> Forall visible ps ->
        exists ps' g',
          _update_particles sin self ps frame_num total_frames g
          = inr (ps', g')
          /\ Forall visible ps')
  /\ (forall PIL_AVAILABLE duration active_windows g,
        pool_visible
          (pool (generate_overlay_video sin _render_frame self PIL_AVAILABLE
                   enc duration active_windows g))).
Proof.
  intros S C F.
  split; [|split].
  - intros tf g T. unfold _init_particles.
    now apply spawn_initial_visible.
  - intros ps f tf g T V. now apply update_particles_visible.
  - intros PIL duration ws g.
    assert (P0 : pool_visible (particles (initial_state g)))
      by (intros ps; discriminate).
    unfold generate_overlay_video.
    destruct (negb PIL); [apply P0|].
    destruct (_ <=? 0)%Z eqn:T; [apply P0|].
    apply Z.leb_gt in T.
    destruct (negb (launches enc)); [apply P0|].
    match goal with
    | |- context [frame_loop _ _ _ _ ?rs ?tf ?tb ?fs ?st] =>
        pose proof (frame_loop_visible sin self S C F _render_frame enc
                      rs tf tb fs ltac:(lia) st P0) as L;
        destruct (frame_loop sin _render_frame self enc rs tf tb fs st)
          as [[e|] st']
    end; cbn [snd] in L;
      [|destruct (exit_status enc) as [rc|]; [destruct (negb _)|]]; exact L.
Qed.

Lemma opacity_stays_in_range_witness :
  match pool (generate_overlay_video flat_sin blank_raster small_sparkles true
                ideal_encoder (1 # 5) None some_rng) with
  | Some ps => Forall visible ps /\ List.length ps = 32%nat
  | None => False
  end.
Proof.
  pose proof (proj2 (proj2
                (opacity_stays_in_range flat_sin blank_raster small_sparkles
                   ideal_encoder
                   ltac:(intro x; unfold flat_sin; split; discriminate)
                   ltac:(discriminate) ltac:(vm_compute; discriminate)))
                true (1 # 5) None some_rng) as V.
  destruct (pool _) as [ps|] eqn:E.
  - split; [apply V; reflexivity|].
    vm_compute in E. injection E as <-. reflexivity.
  - vm_compute in E. discriminate E.
Defined.

End ParticleMore.

(* ================================================================== *)
(** * Slideshow generation: the overlay cache *)
(* ================================================================== *)

Module OverlayCache.

Import Random Particles RandomFacts ParticleSpec Slideshow.

Section Cache.

Variable sin : Q -> Q.
Variable _render_frame : ParticleOverlayGenerator -> list Particle -> list Byte.byte.
Variable PIL_AVAILABLE : bool.
Variable encoder_for : string -> encoder.
Variable digest :
  ParticleType * Q * Q * Q * (Z * Z) * list (Q * Q) -> string.
Variable temp_dir : string.
Variable td : Q.

Lemma cache_get_set (cache : overlay_cache) (key file : string) :
  cache_get (cache_set cache key file) key = Some file.
Proof using Type.
  unfold cache_get, cache_set. cbn. now rewrite String.eqb_refl.
Qed.

(** The key does not depend on the logger of the generator. *)
Lemma get_cache_key_with_log (self : ParticleOverlayGenerator) (lg : logger)
  (duration : Q) (ws : list (Q * Q)) :
  get_cache_key digest (with_log self lg) duration ws
  = get_cache_key digest self duration ws.
Proof using Type. reflexivity. Qed.

Definition overlay (self : ParticleOverlayGenerator) (duration : Q)
  (segment_position : string) (cache : overlay_cache) : M overlay_result :=
  _get_transition_overlay sin _render_frame PIL_AVAILABLE encoder_for digest
    temp_dir td self duration segment_position cache.

(** X12.  Outside random mode, [_get_transition_overlay] remembers a success
    and forgets a failure.  When a call returns a path, the next call for
    the same duration and position returns the same path from the cache:
    it starts no encoder, writes no frame, draws no random number and
    leaves the cache as it is.  When a call returns [None], an overlay
    was attempted and failed, the cache is unchanged, and the next call
    attempts the generation again. *)
Theorem overlay_cache_round_trip (self : ParticleOverlayGenerator)
  (duration : Q) (segment_position : string) (cache : overlay_cache)
  (g g1 : rng) (res : overlay_result) :
  is_random_mode self = false ->
  overlay self duration segment_position cache g = inr (res, g1) ->
  let key := get_cache_key digest self duration
               (transition_windows td duration segment_position) in
  match overlay_path res with
  | Some file =>
      cache_get (cache_after res) key = Some file
      /\ forall g2,
           overlay (generator res) duration segment_position
             (cache_after res) g2
           = inr ({| overlay_path := Some file;
                     generator := generator res;
                     cache_after := cache_after res;
                     generation := None |}, g2)
  | None =>
      cache_after res = cache
      /\ cache_get cache key = None
      /\ (exists r, generation res = Some r /\ returned r = false)
      /\ forall g2, exists res2 g3 r2,
           overlay (generator res) duration segment_position
             (cache_after res) g2 = inr (res2, g3)
           /\ generation res2 = Some r2
  end.
Proof using Type.
  intros NR H key.
  unfold overlay, _get_transition_overlay in H. rewrite NR in H.
  change (bind (ret self) ?k) with (k self) in H. cbv beta in H.
  fold key in H.
  destruct (cache_get cache key) as [file|] eqn:C.
  - apply ret_inr in H as [<- <-]. cbn [overlay_path cache_after generator].
    split; [exact C|]. intro g2.
    unfold overlay, _get_transition_overlay. rewrite NR.
    change (bind (ret self) ?k) with (k self). cbv beta.
    fold key. rewrite C. reflexivity.
  - destruct (returned _) eqn:R in H; injection H as <- <-;
      cbn [overlay_path cache_after generator generation].
    + split; [apply cache_get_set|]. intro g2.
      unfold overlay, _get_transition_overlay.
      cbn [is_random_mode with_log]. rewrite NR.
      change (bind (ret ?s) ?k) with (k s). cbv beta.
      rewrite get_cache_key_with_log. fold key.
      rewrite cache_get_set. reflexivity.
    + split; [reflexivity|]. split; [reflexivity|].
      split; [eexists; split; [reflexivity | exact R]|].
      intro g2.
      unfold overlay, _get_transition_overlay.
      cbn [is_random_mode with_log]. rewrite NR.
      change (bind (ret ?s) ?k) with (k s). cbv beta.
      rewrite get_cache_key_with_log. fold key. rewrite C.
      match goal with
      | |- context [if ?b then _ else _] => destruct b
      end; do 3 eexists; split; reflexivity.
Qed.

End Cache.

Definition one_key
  (k : ParticleType * Q * Q * Q * (Z * Z) * list (Q * Q)) : string :=
  "0123456789ab".

Definition any_encoder (output_path : string) : encoder := ideal_encoder.

Lemma overlay_cache_round_trip_witness :
  match overlay flat_sin blank_raster true any_encoder one_key "tmp" (1 # 10)
          small_hearts (1 # 2) "middle" [] some_rng with
  | inr (res, g1) =>
      overlay_path res = Some "tmp/overlay_0123456789ab.mov"%string
      /\ overlay flat_sin blank_raster true any_encoder one_key "tmp" (1 # 10)
           (generator res) (1 # 2) "middle" (cache_after res) g1
         = inr ({| overlay_path := Some "tmp/overlay_0123456789ab.mov"%string;
                   generator := generator res;
                   cache_after := cache_after res;
                   generation := None |}, g1)
  | inl _ => False
  end.
Proof.
  assert (P : match overlay flat_sin blank_raster true any_encoder one_key "tmp" (1 # 10)
          small_hearts (1 # 2) "middle" [] some_rng with
              | inr (res, _) =>
                  overlay_path res
                  = Some "tmp/overlay_0123456789ab.mov"%string
              | inl _ => False
              end) by (vm_compute; reflexivity).
  destruct (overlay flat_sin blank_raster true any_encoder one_key "tmp" (1 # 10)
          small_hearts (1 # 2) "middle" [] some_rng)
    as [e|[res g1]] eqn:E; [exact P|].
  split; [exact P|].
  assert (NR : is_random_mode small_hearts = false) by reflexivity.
  pose proof (overlay_cache_round_trip flat_sin blank_raster true
                any_encoder one_key "tmp" (1 # 10)
                small_hearts (1 # 2) "middle" [] some_rng g1 res NR E) as R.
  cbv zeta in R. rewrite P in R. destruct R as [_ R]. exact (R g1).
Defined.

End OverlayCache.

(* ================================================================== *)
(** * Choosing the special photo and the regular images *)
(* ================================================================== *)

Module ImagesSpec.

Import Utils.
Local Open Scope string_scope.

(** ** Substrings *)





Section Paths.

Variable name : string -> string.
Variable resolve : string -> string.

(** ** [find_image_by_name] *)





(** ** [_find_special_photo] and [_filter_regular_images] *)




End Paths.

(** A file name taken to be the whole path. *)
Definition whole (p : string) : string := p.

Example exact_beats_partial :
  fst (find_image_by_name whole ["my_family.jpg"; "Family.JPG"; "x.png"]
         "family.jpg" [])
  = Some "Family.JPG".
Proof. reflexivity. Qed.

End ImagesSpec.

(* ================================================================== *)
(** * Ken Burns effects: parameters, failures and statistics *)
(* ================================================================== *)

Module KenBurnsSpec.

Import Random RandomFacts KenBurns.

(** ** The weighted draws never fail *)

Lemma select_effect_type_total (is_portrait : bool) (g : rng) :
  exists t g', _select_effect_type is_portrait g = inr (t, g')
    /\ (is_portrait = true -> In t [ZOOM_IN; ZOOM_OUT; PAN_UP; PAN_DOWN]).
Proof.
  unfold _select_effect_type. destruct is_portrait.
  - destruct (TransitionMore.choices1_total
                [ZOOM_IN; ZOOM_OUT; PAN_UP; PAN_DOWN]
                [3 # 10; 3 # 10; 2 # 10; 2 # 10] g) as (t & g' & E);
      try reflexivity; try discriminate.
    { repeat constructor; discriminate. }
    exists t, g'. split; [exact E|]. intros _. exact (choices1_In _ _ _ _ _ E).
  - destruct (TransitionMore.choices1_total all_effects
                [25 # 100; 25 # 100; 15 # 100; 15 # 100; 5 # 100; 5 # 100;
                 10 # 100] g) as (t & g' & E);
      try reflexivity; try discriminate.
    { repeat constructor; discriminate. }
    exists t, g'. split; [exact E | discriminate].
Qed.

Lemma select_easing_total (g : rng) :
  exists e g', _select_easing g = inr (e, g').
Proof.
  unfold _select_easing.
  apply TransitionMore.choices1_total;
    try reflexivity; try discriminate.
  repeat constructor; discriminate.
Qed.

(** ** One configuration *)

(** What [_generate_config] sets for each effect type. *)
Definition shaped (self : KenBurnsGenerator) (zoom_min zoom_max : Q)
  (c : KenBurnsConfig) : Prop :=
  let half := pan_amount self * (1 # 2) in
  match effect_type c with
  | ZOOM_IN =>
      zoom_start c = zoom_min /\ zoom_end c = zoom_max
      /\ pan_x c = 0 /\ pan_y c = 0
  | ZOOM_OUT =>
      zoom_start c = zoom_max /\ zoom_end c = zoom_min
      /\ pan_x c = 0 /\ pan_y c = 0
  | PAN_LEFT =>
      zoom_start c = zoom_min + (2 # 100) /\ zoom_end c = zoom_start c
      /\ pan_x c = - pan_amount self /\ pan_y c = 0
  | PAN_RIGHT =>
      zoom_start c = zoom_min + (2 # 100) /\ zoom_end c = zoom_start c
      /\ pan_x c = pan_amount self /\ pan_y c = 0
  | PAN_UP =>
      zoom_start c = zoom_min + (2 # 100) /\ zoom_end c = zoom_start c
      /\ pan_x c = 0 /\ pan_y c = - pan_amount self
  | PAN_DOWN =>
      zoom_start c = zoom_min + (2 # 100) /\ zoom_end c = zoom_start c
      /\ pan_x c = 0 /\ pan_y c = pan_amount self
  | DIAGONAL =>
      zoom_start c = zoom_min /\ zoom_end c = zoom_max
      /\ (pan_x c = - pan_amount self * (1 # 2) \/ pan_x c = half)
      /\ (pan_y c = - pan_amount self * (1 # 2) \/ pan_y c = half)
  end.

Lemma choice_pair {A} (a b x : A) (g g' : rng) :
  choice [a; b] g = inr (x, g') -> x = a \/ x = b.
Proof. intro H. apply choice_In in H. cbn in H. intuition congruence. Qed.

Lemma generate_config_spec (self : KenBurnsGenerator) (t : KenBurnsType)
  (zoom_min zoom_max : Q) (c : KenBurnsConfig) (g g' : rng) :
  zoom_range self = [zoom_min; zoom_max] ->
  _generate_config self t g = inr (c, g') ->
  effect_type c = t
  /\ In (speed_multiplier c) (speed_variations self)
  /\ shaped self zoom_min zoom_max c.
Proof.
  intros Z H. unfold _generate_config in H. rewrite Z in H.
  apply bind_inr in H as (e & g1 & _ & H).
  apply bind_inr in H as (sp & g2 & Hs & H).
  apply choice_In in Hs. unfold shaped.
  destruct t;
    try (apply ret_inr in H as [<- _]; cbn; repeat split; assumption).
  apply bind_inr in H as (px & g3 & Hx & H).
  apply bind_inr in H as (py & g4 & Hy & H).
  apply choice_pair in Hx, Hy.
  apply ret_inr in H as [<- _]. cbn. repeat split; assumption.
Qed.

Lemma generate_config_total (self : KenBurnsGenerator) (t : KenBurnsType)
  (g : rng) :
  List.length (zoom_range self) = 2%nat -> speed_variations self <> [] ->
  exists c g', _generate_config self t g = inr (c, g').
Proof.
  intros Z S. unfold _generate_config.
  destruct (zoom_range self) as [|a [|b [|x l]]]; try discriminate Z.
  destruct (select_easing_total g) as (e & g1 & E1).
  unfold bind at 1. rewrite E1.
  destruct (choice_total (speed_variations self) g1 S) as (sp & g2 & E2).
  unfold bind at 1. rewrite E2.
  destruct t; try (unfold ret; eauto).
  unfold bind. rewrite !choice_cons. unfold ret. eauto.
Qed.

(** What one call of [generate_effect] does to the generator. *)
Lemma generate_effect_spec (self s' : KenBurnsGenerator) (is_portrait : bool)
  (o : option KenBurnsConfig) (g g' : rng) :
  generate_effect self is_portrait g = inr ((o, s'), g') ->
  match o with
  | None => s' = count_none self
  | Some c =>
      s' = count_effect self (effect_type c)
      /\ (is_portrait = true ->
          In (effect_type c) [ZOOM_IN; ZOOM_OUT; PAN_UP; PAN_DOWN])
      /\ exists g1 g2, _generate_config self (effect_type c) g1 = inr (c, g2)
  end.
Proof.
  unfold generate_effect. intro H.
  apply bind_inr in H as (b & g1 & _ & H).
  destruct b; cbn [negb] in H.
  - apply bind_inr in H as (t & g2 & Ht & H).
    apply bind_inr in H as (c & g3 & Hc & H).
    apply ret_inr in H as [H _]. injection H as <- <-.
    assert (T : effect_type c = t).
    { unfold _generate_config in Hc.
      destruct (zoom_range self) as [|a [|b [|x l]]]; try discriminate Hc.
      apply bind_inr in Hc as (e & g4 & _ & Hc).
      apply bind_inr in Hc as (sp & g5 & _ & Hc).
      destruct t; try (apply ret_inr in Hc as [<- _]; reflexivity). }
    rewrite T. split; [reflexivity|]. split; [|eauto].
    intros ->. destruct (select_effect_type_total true g1) as (t' & gx & E & I).
    rewrite E in Ht. injection Ht as <- _. now apply I.
  - apply ret_inr in H as [H _]. now injection H as <- <-.
Qed.

(** X21.  An effect that [generate_effect] returns stays within the
    configuration: its speed is one of the configured speeds, its zoom
    levels lie between [zoom_min] and the larger of [zoom_max] and
    [zoom_min + 0.02] (the pans zoom to [zoom_min + 0.02] whatever
    [zoom_max] is), it pans by at most [pan_amount] on each axis, and a
    portrait image gets one of the two zooms or a vertical pan, never a
    horizontal movement.  When the zoom range is not a point and the pan
    amount is positive, the effect moves the picture. *)
Theorem effect_within_configuration (self s' : KenBurnsGenerator)
  (is_portrait : bool) (c : KenBurnsConfig) (g g' : rng)
  (zoom_min zoom_max : Q) :
  zoom_range self = [zoom_min; zoom_max] ->
  zoom_min <= zoom_max -> 0 <= pan_amount self ->
  generate_effect self is_portrait g = inr ((Some c, s'), g') ->
  In (speed_multiplier c) (speed_variations self)
  /\ (zoom_min <= zoom_start c /\ zoom_min <= zoom_end c)
  /\ (zoom_start c <= Py.max zoom_max (zoom_min + (2 # 100))
      /\ zoom_end c <= Py.max zoom_max (zoom_min + (2 # 100)))
  /\ (Qabs (pan_x c) <= pan_amount self /\ Qabs (pan_y c) <= pan_amount self)
  /\ (is_portrait = true ->
      In (effect_type c) [ZOOM_IN; ZOOM_OUT; PAN_UP; PAN_DOWN]
      /\ pan_x c = 0)
  /\ (zoom_min < zoom_max -> 0 < pan_amount self ->
      ~ (zoom_start c == zoom_end c /\ pan_x c == 0 /\ pan_y c == 0)).
Proof.
  intros Z L P H.
  apply generate_effect_spec in H as (_ & Por & g1 & g2 & Hc).
  destruct (generate_config_spec _ _ _ _ _ _ _ Z Hc) as (_ & Sp & Sh).
  assert (M : zoom_max <= Py.max zoom_max (zoom_min + (2 # 100))
              /\ zoom_min + (2 # 100)
                 <= Py.max zoom_max (zoom_min + (2 # 100))).
  { unfold Py.max. destruct (Py.ltb _ _) eqn:B;
      [apply PyFacts.ltb_true in B | apply PyFacts.ltb_false in B];
      split; lra. }
  destruct M as [M1 M2].
  assert (A0 : Qabs 0 <= pan_amount self) by (cbn; exact P).
  assert (A1 : Qabs (pan_amount self) <= pan_amount self).
  { rewrite Qabs_pos by exact P. apply Qle_refl. }
  assert (A2 : Qabs (- pan_amount self) <= pan_amount self).
  { rewrite Qabs_opp, Qabs_pos by exact P. apply Qle_refl. }
  assert (A3 : Qabs (pan_amount self * (1 # 2)) <= pan_amount self).
  { rewrite Qabs_pos by lra. lra. }
  assert (A4 : Qabs (- pan_amount self * (1 # 2)) <= pan_amount self).
  { setoid_replace (- pan_amount self * (1 # 2))
      with (- (pan_amount self * (1 # 2))) by ring.
    rewrite Qabs_opp, Qabs_pos by lra. lra. }
  split; [exact Sp|].
  unfold shaped in Sh.
  assert (Por' : is_portrait = true ->
                 In (effect_type c) [ZOOM_IN; ZOOM_OUT; PAN_UP; PAN_DOWN]
                 /\ pan_x c = 0).
  { intro E. specialize (Por E). split; [exact Por|].
    destruct (effect_type c); cbn in Por; try tauto;
      try (exfalso; intuition discriminate). }
  destruct (effect_type c);
    [destruct Sh as (S1 & S2 & S3 & S4)..
    |destruct Sh as (S1 & S2 & [S3|S3] & [S4|S4])];
    rewrite ?S2, ?S1, ?S3, ?S4;
    (split; [split; lra|]);
    (split; [split; lra|]);
    (split; [split; assumption|]);
    (split; [intro E; destruct (Por' E) as [X Y];
             split; [exact X | congruence]|]);
    intros Lt Pp [E1 [E2 E3]];
    rewrite ?S2, ?S1, ?S3, ?S4 in E1, E2, E3; lra.
Qed.

Definition default_generator : KenBurnsGenerator :=
  __init__ {| cfg_application_rate := Some 1; cfg_zoom_range := None;
              cfg_pan_amount := None; cfg_speed_variations := None |} [].

Lemma effect_within_configuration_witness :
  match generate_effect default_generator true ParticleSpec.some_rng with
  | inr ((Some c, _), _) =>
      (1 <= zoom_start c /\ 1 <= zoom_end c) /\ pan_x c = 0
  | _ => False
  end.
Proof.
  destruct (generate_effect default_generator true ParticleSpec.some_rng)
    as [e|[[[c|] s'] g']] eqn:E;
    try (vm_compute in E; discriminate E).
  destruct (effect_within_configuration default_generator s' true c
              ParticleSpec.some_rng g' 1 (108 # 100))
    as (_ & Z & _ & _ & P & _);
    try reflexivity; try discriminate; try exact E.
  split; [exact Z|]. now apply P.
Defined.

(** ** When the call fails *)

(** X22.  [generate_effect] returns whenever the zoom range has two entries
    and there is a speed to choose from.  With an application rate of
    zero or less it applies no effect, counts the image under "none" and
    consumes one random number.  With a rate of one or more it always
    applies an effect, and then a zoom range that does not have two
    entries raises [ValueError] and an empty list of speeds raises
    [IndexError]. *)
Theorem generate_effect_failures (self : KenBurnsGenerator)
  (is_portrait : bool) (g : rng) :
  (List.length (zoom_range self) = 2%nat -> speed_variations self <> [] ->
   exists o s' g', generate_effect self is_portrait g = inr ((o, s'), g')
     /\ (1 <= application_rate self -> o <> None))
  /\ (application_rate self <= 0 ->
      generate_effect self is_portrait g
      = inr ((None, count_none self), advance g))
  /\ (1 <= application_rate self ->
      List.length (zoom_range self) <> 2%nat ->
      generate_effect self is_portrait g = inl Py.ValueError)
  /\ (1 <= application_rate self ->
      List.length (zoom_range self) = 2%nat -> speed_variations self = [] ->
      generate_effect self is_portrait g = inl Py.IndexError).
Proof.
  destruct (random_total g) as (u & g1 & Eu & U0 & U1).
  assert (G1 : g1 = advance g).
  { unfold random, bind, next_word, ret in Eu. now injection Eu as _ <-. }
  assert (High : 1 <= application_rate self ->
                 Py.ltb u (application_rate self) = true).
  { intro H. apply PyFacts.ltb_true. lra. }
  destruct (select_effect_type_total is_portrait g1) as (t & g2 & Et & _).
  split; [|split; [|split]].
  - intros Z S. unfold generate_effect, should_apply.
    unfold bind at 1. unfold bind at 1. rewrite Eu. cbv beta iota.
    unfold ret at 1. cbv beta iota.
    destruct (Py.ltb u (application_rate self)) eqn:B; cbn [negb].
    + unfold bind at 1. rewrite Et.
      destruct (generate_config_total self t g2 Z S) as (c & g3 & Ec).
      unfold bind. rewrite Ec. unfold ret.
      do 3 eexists. split; [reflexivity | discriminate].
    + unfold ret. do 3 eexists. split; [reflexivity|].
      intro H. specialize (High H). discriminate High.
  - intro R0. unfold generate_effect, should_apply.
    unfold bind at 1. unfold bind at 1. rewrite Eu. cbv beta iota.
    unfold ret at 1. cbv beta iota.
    replace (Py.ltb u (application_rate self)) with false
      by (symmetry; apply PyFacts.ltb_false; lra).
    cbn [negb]. unfold ret. now rewrite G1.
  - intros R1 Z. unfold generate_effect, should_apply.
    unfold bind at 1. unfold bind at 1. rewrite Eu. cbv beta iota.
    unfold ret at 1. cbv beta iota. rewrite (High R1). cbn [negb].
    unfold bind at 1. rewrite Et. unfold bind, _generate_config.
    destruct (zoom_range self) as [|a [|b [|x l]]]; try reflexivity.
    now contradiction Z.
  - intros R1 Z S. unfold generate_effect, should_apply.
    unfold bind at 1. unfold bind at 1. rewrite Eu. cbv beta iota.
    unfold ret at 1. cbv beta iota. rewrite (High R1). cbn [negb].
    unfold bind at 1. rewrite Et. unfold bind at 1. unfold _generate_config.
    destruct (zoom_range self) as [|a [|b [|x l]]]; try discriminate Z.
    destruct (select_easing_total g2) as (e & g3 & Ee).
    unfold bind at 1. rewrite Ee. rewrite S. reflexivity.
Qed.

(** ** Statistics *)

(** The configurations among the results. *)
Definition applied (cs : list (option KenBurnsConfig)) : list KenBurnsConfig :=
  flat_map (fun o => match o with Some c => [c] | None => [] end) cs.

Definition skipped (cs : list (option KenBurnsConfig)) : nat :=
  List.length (filter (fun o => match o with None => true | Some _ => false end)
                      cs).

Definition of_type (t : KenBurnsType) (cs : list (option KenBurnsConfig))
  : nat :=
  List.length (filter (fun c => effect_eqb (effect_type c) t) (applied cs)).

Lemma stats_total_count_none (self : KenBurnsGenerator) :
  stats_total (count_none self) = (stats_total self + 1)%Z.
Proof. unfold stats_total, count_none. cbn. lia. Qed.

Lemma stats_total_count_effect (self : KenBurnsGenerator) (t : KenBurnsType) :
  stats_total (count_effect self t) = (stats_total self + 1)%Z.
Proof. unfold stats_total, count_effect. destruct t; cbn; lia. Qed.

Lemma applied_skipped (cs : list (option KenBurnsConfig)) :
  (List.length (applied cs) + skipped cs = List.length cs)%nat.
Proof.
  unfold applied, skipped.
  induction cs as [|[c|] cs IH]; cbn [flat_map app filter List.length]; lia.
Qed.

Lemma of_type_cons_some (t : KenBurnsType) (c : KenBurnsConfig)
  (cs : list (option KenBurnsConfig)) :
  of_type t (Some c :: cs)
  = if effect_eqb (effect_type c) t then S (of_type t cs) else of_type t cs.
Proof.
  unfold of_type, applied. cbn [flat_map app filter].
  destruct (effect_eqb (effect_type c) t); reflexivity.
Qed.

Lemma of_type_cons_none (t : KenBurnsType)
  (cs : list (option KenBurnsConfig)) :
  of_type t (None :: cs) = of_type t cs.
Proof. reflexivity. Qed.

Lemma effect_eqb_sym (a b : KenBurnsType) : effect_eqb a b = effect_eqb b a.
Proof.
  unfold effect_eqb.
  destruct (effect_eq_dec a b), (effect_eq_dec b a); congruence.
Qed.

Lemma generate_effects_spec (portraits : list bool) :
  forall (self s' : KenBurnsGenerator) (g g' : rng)
         (cs : list (option KenBurnsConfig)),
    generate_effects self portraits g = inr ((cs, s'), g') ->
    List.length cs = List.length portraits
    /\ stats_total s' = (stats_total self + Z.of_nat (List.length cs))%Z
    /\ stats_none s' = (stats_none self + Z.of_nat (skipped cs))%Z
    /\ (forall t, stats s' t = (stats self t + Z.of_nat (of_type t cs))%Z).
Proof.
  induction portraits as [|p ps IH]; intros self s' g g' cs H.
  - apply ret_inr in H as [H _]. injection H as <- <-.
    cbn. repeat split; intros; lia.
  - cbn [generate_effects] in H.
    apply bind_inr in H as ([o s1] & g1 & H1 & H).
    apply bind_inr in H as ([cs' s2] & g2 & H2 & H).
    apply ret_inr in H as [H _]. injection H as <- <-.
    apply IH in H2 as (L & T & N & S).
    apply generate_effect_spec in H1.
    destruct o as [c|].
    + destruct H1 as (-> & _).
      rewrite stats_total_count_effect in T.
      split; [cbn; lia|]. split; [cbn [List.length]; lia|].
      split; [exact N|].
      intro t. rewrite S, of_type_cons_some. cbn [stats count_effect].
      rewrite (effect_eqb_sym t (effect_type c)).
      destruct (effect_eqb (effect_type c) t); lia.
    + subst s1. rewrite stats_total_count_none in T.
      split; [cbn; lia|]. split; [cbn [List.length]; lia|].
      split; [unfold skipped in *; cbn in *; lia|].
      intro t. rewrite S, of_type_cons_none. reflexivity.
Qed.

Lemma sum_positive_entries {A} (f : A -> Z) (l : list A) :
  (forall a, 0 <= f a)%Z ->
  fold_right Z.add 0%Z (map f (filter (fun a => (0 <? f a)%Z) l))
  = fold_right Z.add 0%Z (map f l).
Proof.
  intro P. induction l as [|a l IH]; [reflexivity|]. cbn.
  destruct (0 <? f a)%Z eqn:E; cbn; rewrite IH; [reflexivity|].
  apply Z.ltb_ge in E. specialize (P a). lia.
Qed.

(** X23.  After [generate_effect] has been asked once for every image, on a
    fresh generator, the statistics account for every image: the total is
    the number of images, "no_effect" the number of images that got
    [None], "effects_applied" the number that got a configuration, each
    entry of the distribution the number of configurations of that type,
    only types that occurred being listed, and the percentage lies
    between 0 and 100.  The statistics are empty only when there was no
    image. *)
Theorem statistics_count_every_image (cfg : effect_config) (lg : logger)
  (portraits : list bool) (g g' : rng) (s' : KenBurnsGenerator)
  (cs : list (option KenBurnsConfig)) :
  generate_effects (__init__ cfg lg) portraits g = inr ((cs, s'), g') ->
  List.length cs = List.length portraits
  /\ match get_statistics s' with
     | None => portraits = []
     | Some st =>
         total_images st = Z.of_nat (List.length portraits)
         /\ no_effect st = Z.of_nat (skipped cs)
         /\ effects_applied st = Z.of_nat (List.length (applied cs))
         /\ effect_distribution st
            = map (fun t => (effect_value t, Z.of_nat (of_type t cs)))
                  (filter (fun t => (0 <? of_type t cs)%nat) all_effects)
         /\ fold_right Z.add 0%Z (map snd (effect_distribution st))
            = effects_applied st
         /\ 0 <= application_rate_percent st
         /\ application_rate_percent st <= 100
     end.
Proof.
  intro H. apply generate_effects_spec in H as (L & T & N & S).
  split; [exact L|].
  assert (T0 : stats_total (__init__ cfg lg) = 0%Z) by reflexivity.
  assert (N0 : stats_none (__init__ cfg lg) = 0%Z) by reflexivity.
  assert (S0 : forall t, stats s' t = Z.of_nat (of_type t cs)).
  { intro t. rewrite S. reflexivity. }
  rewrite T0 in T. rewrite N0 in N. cbn [Z.add] in T, N.
  pose proof (applied_skipped cs) as AS.
  unfold get_statistics. rewrite T.
  destruct (Z.of_nat (List.length cs) =? 0)%Z eqn:Z0.
  - apply Z.eqb_eq in Z0. destruct portraits; [reflexivity|].
    cbn in L. lia.
  - apply Z.eqb_neq in Z0.
    cbn [total_images no_effect effects_applied effect_distribution
         application_rate_percent].
    rewrite N.
    assert (A : (Z.of_nat (List.length cs) - Z.of_nat (skipped cs)
                 = Z.of_nat (List.length (applied cs)))%Z) by lia.
    assert (D : map (fun t => (effect_value t, stats s' t))
                    (filter (fun t => (0 <? stats s' t)%Z) all_effects)
                = map (fun t => (effect_value t, Z.of_nat (of_type t cs)))
                      (filter (fun t => (0 <? of_type t cs)%nat) all_effects)).
    { assert (F : forall l, filter (fun t => (0 <? stats s' t)%Z) l
                            = filter (fun t => (0 <? of_type t cs)%nat) l).
      { intro l. apply filter_ext. intro t. rewrite S0.
        destruct (0 <? of_type t cs)%nat eqn:B.
        - apply Nat.ltb_lt in B. apply Z.ltb_lt. lia.
        - apply Nat.ltb_ge in B. apply Z.ltb_ge. lia. }
      rewrite F. apply map_ext. intro t. now rewrite S0. }
    split; [congruence|]. split; [reflexivity|]. split; [exact A|].
    split; [exact D|]. split.
    + rewrite map_map.
      rewrite (map_ext (fun t => snd (effect_value t, stats s' t)) (stats s')
                 (fun _ => eq_refl)).
      rewrite (sum_positive_entries (stats s') all_effects)
        by (intro t; rewrite S0; lia).
      unfold stats_total in T. lia.
    + rewrite A.
      assert (P : 0 < inject_Z (Z.of_nat (List.length cs))).
      { unfold Qlt. cbn. lia. }
      assert (B0 : 0 <= inject_Z (Z.of_nat (List.length (applied cs)))).
      { unfold Qle. cbn. lia. }
      assert (B1 : inject_Z (Z.of_nat (List.length (applied cs)))
                   <= inject_Z (Z.of_nat (List.length cs))).
      { unfold Qle. cbn. lia. }
      set (a := inject_Z (Z.of_nat (List.length (applied cs)))) in *.
      set (n := inject_Z (Z.of_nat (List.length cs))) in *.
      assert (R0 : 0 <= a / n) by (apply Qle_shift_div_l; lra).
      assert (R1 : a / n <= 1) by (apply Qle_shift_div_r; lra).
      split; lra.
Qed.

Lemma statistics_count_every_image_witness :
  match generate_effects (__init__ {| cfg_application_rate := None;
                                      cfg_zoom_range := None;
                                      cfg_pan_amount := None;
                                      cfg_speed_variations := None |} [])
          [true; false; false; true; false] ParticleSpec.some_rng with
  | inr ((cs, s'), _) =>
      match get_statistics s' with
      | Some st => total_images st = 5%Z
                   /\ (effects_applied st + no_effect st = 5)%Z
      | None => False
      end
  | inl _ => False
  end.
Proof.
  destruct (generate_effects _ _ _) as [e|[[cs s'] g']] eqn:E.
  - vm_compute in E. discriminate E.
  - destruct (statistics_count_every_image _ _ _ _ _ _ _ E) as [L S].
    destruct (get_statistics s') as [st|]; [|discriminate S].
    destruct S as (T & N & A & _). split; [exact T|].
    rewrite A, N. pose proof (applied_skipped cs). cbn in L. lia.
Defined.

End KenBurnsSpec.

(* ================================================================== *)
(** * Final concatenation *)
(* ================================================================== *)

Module ConcatSpec.

Import Segment.

(** X24.  [concatenate_segments] returns [True] exactly when there is a
    segment, the concat list could be written, the merging engine exited
    with status 0 and the final file exists.  Every [False] leaves an
    error as the last record of the log.  With at least one segment the
    concat list is gone when the call returns, however it ends; with no
    segment the file system is not touched.  The audio fade-out of the
    command starts [audio_fade_out] seconds before the probed end of the
    audio, and at [- audio_fade_out] when probing the audio failed. *)
Theorem concatenate_segments_verdict (self : SegmentRenderer) (lg : logger)
  (segments : list string) (audio_fade_in audio_fade_out : Q)
  (w : concat_world) (list_before : bool) :
  let r := concatenate_segments self lg segments audio_fade_in
             audio_fade_out w list_before in
  (concat_ok r = true <->
   segments <> [] /\ list_writable w = true
   /\ (exists lines, merge_run w = Exited lines 0)
   /\ final_exists w = true)
  /\ (if concat_ok r
      then ParticleMore.last_level (concat_log r) = Some INFO
      else ParticleMore.last_level (concat_log r) = Some ERROR)
  /\ (match segments with
      | [] => list_left r = list_before /\ fade_out_start r = None
      | _ => list_left r = false
      end)
  /\ (match fade_out_start r with
      | Some st =>
          st == match audio_probe w with
                | Some d => d - audio_fade_out
                | None => - audio_fade_out
                end
      | None => segments = [] \/ list_writable w = false
      end).
Proof.
  cbv zeta. unfold concatenate_segments.
  destruct segments as [|s rest].
  { cbn. split; [|split; [|split]]; auto.
    - split; [discriminate|]. intros (N & _). congruence.
    - apply ParticleMore.last_level_emit. }
  destruct (list_writable w); cbn [negb].
  2:{ cbn. split; [|split; [|split]]; auto.
      - split; [discriminate|]. intros (_ & N & _). discriminate N.
      - apply ParticleMore.last_level_emit. }
  assert (F : forall lg0,
             fst (_get_duration (audio_probe w) lg0) - audio_fade_out
             == match audio_probe w with
                | Some d => d - audio_fade_out
                | None => - audio_fade_out
                end).
  { intro lg0. destruct (audio_probe w); cbn; ring. }
  specialize (F (emit lg INFO "Concatenating segments")).
  destruct (_get_duration (audio_probe w) _) as [d lg1]. cbn [fst] in F.
  destruct (merge_run w) as [e|lines rc].
  { cbn. split; [|split; [|split]]; auto.
    - split; [discriminate|]. intros (_ & _ & [l X] & _). discriminate X.
    - apply ParticleMore.last_level_emit. }
  destruct (rc =? 0)%Z eqn:Z0.
  2:{ cbn. split; [|split; [|split]]; auto.
      - split; [discriminate|]. intros (_ & _ & [l X] & _).
        injection X as _ E. subst rc. discriminate Z0.
      - apply ParticleMore.last_level_emit. }
  apply Z.eqb_eq in Z0. subst rc.
  destruct (final_exists w).
  - cbn. split; [|split; [|split]]; auto.
    + split; [|reflexivity]. intros _.
      repeat split; try discriminate. eauto.
    + apply ParticleMore.last_level_emit.
  - cbn. split; [|split; [|split]]; auto.
    + split; [discriminate|]. intros (_ & _ & _ & X). discriminate X.
    + apply ParticleMore.last_level_emit.
Qed.

End ConcatSpec.
